(** * speedSL: threshold crossings and interval measurements over a telemetry log

    Shallow embedding of [src/speedSL.py]: the two crossing locators
    ([find_crossing_time_with_interpolation], [find_nearest_value]) and the
    three measurements built on them ([calculate_speed_acceleration],
    [calculate_rpm_acceleration], [calculate_distance_time]).

    Numbers.  The program computes on numpy float64 columns.  The embedding
    uses exact rationals [Q]: comparisons and branch structure are those of the
    source, rounding and the special values inf and nan are outside the model.
    Results are compared with [==] where arithmetic took place and with [=]
    where a value is passed through unchanged.

    Exceptions.  Every measurement is wrapped in [try ... except Exception:
    return None].  The body of each [try] is embedded in the monad [exc]; the
    measurement itself maps a raised exception to [None]. *)

From Stdlib Require Import List Bool Arith Lia QArith Qabs Qround Lqa Sorted Permutation.
From Stdlib Require String.
Import String.StringSyntax.
Delimit Scope string_scope with string.
Import ListNotations.

Local Open Scope Q_scope.

(** ** Exceptions *)

Inductive exn : Type :=
| IndexError          (* indexing an array outside its bounds *)
| ValueError          (* numpy.interp on an empty array of sample points *)
| ZeroDivision.       (* a quotient whose denominator is zero *)

Inductive exc (A : Type) : Type :=
| Ok (a : A)
| Raise (e : exn).

Arguments Ok {A} a.
Arguments Raise {A} e.

Definition bind {A B : Type} (m : exc A) (k : A -> exc B) : exc B :=
  match m with
  | Ok a => k a
  | Raise e => Raise e
  end.

Notation "x <- m ;; k" := (bind m (fun x => k))
  (at level 61, m at next level, right associativity).
Notation "' p <- m ;; k" := (bind m (fun p => k))
  (at level 61, p pattern, m at next level, right associativity).

(** [try: body except Exception: return None] *)
Definition try_except {A : Type} (body : exc (option A)) : option A :=
  match body with
  | Ok r => r
  | Raise _ => None
  end.

(** ** Scalars *)

Definition Qlt_bool (a b : Q) : bool := negb (Qle_bool b a).

(** A quotient by a computed denominator.  numpy would not raise on a zero
    denominator but continue with inf or nan; the embedding records the event
    as [ZeroDivision] so that its absence can be stated and proved. *)
Definition qdiv (a b : Q) : exc Q :=
  if Qeq_bool b 0 then Raise ZeroDivision else Ok (a / b).

(** ** Arrays *)

(** [a[i]] for an index [i >= 0]. *)
Definition getitem {A : Type} (a : list A) (i : nat) : exc A :=
  match nth_error a i with
  | Some x => Ok x
  | None => Raise IndexError
  end.

(** [np.any(mask)] *)
Definition np_any (mask : list bool) : bool := existsb (fun b => b) mask.

(** [np.argmax(mask)] on a boolean array: the first index holding [True],
    and [0] when there is none. *)
Fixpoint np_argmax (mask : list bool) : nat :=
  match mask with
  | [] => 0%nat
  | b :: rest => if b then 0%nat else if np_any rest then S (np_argmax rest) else 0%nat
  end.

(** [a[:-1]] and [a[1:]] *)
Definition but_last {A : Type} (a : list A) : list A := removelast a.
Definition from_1 {A : Type} (a : list A) : list A := tl a.

(** Elementwise binary operation on two arrays of the same length. *)
Fixpoint map2 {A B C : Type} (f : A -> B -> C) (a : list A) (b : list B) : list C :=
  match a, b with
  | x :: a', y :: b' => f x y :: map2 f a' b'
  | _, _ => []
  end.

(** [np.diff(a)]: [a[1:] - a[:-1]] *)
Definition np_diff (a : list Q) : list Q := map2 Qminus (from_1 a) (but_last a).

(** [np.sum(a)] *)
Definition np_sum (a : list Q) : Q := fold_left Qplus a 0.

(** [np.cumsum(a)] *)
Fixpoint cumsum_from (acc : Q) (a : list Q) : list Q :=
  match a with
  | [] => []
  | x :: rest => (acc + x) :: cumsum_from (acc + x) rest
  end.

Definition np_cumsum (a : list Q) : list Q :=
  match a with
  | [] => []
  | x :: rest => x :: cumsum_from x rest
  end.

(** [numpy.interp(x, xp, fp)] for a scalar [x].  This is library code, not part
    of the repository; it is modelled from numpy's documented behaviour for
    increasing sample points [xp]: [fp[0]] left of the first point, [fp[-1]]
    right of the last one, and on the segment [xp[j] <= x < xp[j+1]] the value
    [fp[j]] when [x = xp[j]] and [slope * (x - xp[j]) + fp[j]] otherwise. *)
Fixpoint interp_scan (x x0 f0 : Q) (rest : list (Q * Q)) : exc Q :=
  match rest with
  | [] => Ok f0
  | (x1, f1) :: rest' =>
      if Qlt_bool x x1 then
        if Qeq_bool x0 x then Ok f0
        else
          slope <- qdiv (f1 - f0) (x1 - x0) ;;
          Ok (slope * (x - x0) + f0)
      else interp_scan x x1 f1 rest'
  end.

Definition np_interp (x : Q) (xp fp : list Q) : exc Q :=
  match combine xp fp with
  | [] => Raise ValueError
  | (x0, f0) :: rest =>
      if Qlt_bool x x0 then Ok f0
      else if Qlt_bool (last xp x0) x then Ok (last fp f0)
      else interp_scan x x0 f0 rest
  end.

(** ** Data frames *)

(** The columns the program reads and writes. *)
Inductive column : Type :=
| Time_ms          (* 'Time [ms]' *)
| Vehicle_Speed    (* 'Vehicle Speed [km/h]' *)
| Engine_Speed     (* 'Engine Speed (RPM) [1/min]' *)
| Time_s.          (* 'Time [s]', added by the measurements *)

(** A row of the uploaded log. *)
Record row : Type := mkRow {
  time_ms : Q;
  speed_kmh : Q;
  rpm : Q
}.

(** A row of [df_work]: the uploaded row and its 'Time [s]' cell. *)
Record wrow : Type := mkWRow {
  base : row;
  time_s : Q
}.

Definition DataFrame := list row.
Definition WorkFrame := list wrow.

(** [df_work = df.copy(); df_work['Time [s]'] = df_work['Time [ms]'] / 1000.0] *)
Definition with_time_s (df : DataFrame) : WorkFrame :=
  map (fun r => mkWRow r (time_ms r / 1000)) df.

(** [df[c].values], cell by cell. *)
Definition cell (c : column) (r : wrow) : Q :=
  match c with
  | Time_ms => time_ms (base r)
  | Vehicle_Speed => speed_kmh (base r)
  | Engine_Speed => rpm (base r)
  | Time_s => time_s r
  end.

Definition col (c : column) (df : WorkFrame) : list Q := map (cell c) df.

(** [df[df['Time [s]'] >= t]] *)
Definition after (t : Q) (df : WorkFrame) : WorkFrame :=
  filter (fun r => Qle_bool t (time_s r)) df.

(** [df[(df['Time [s]'] >= t0) & (df['Time [s]'] <= t1)]] *)
Definition between (t0 t1 : Q) (df : WorkFrame) : WorkFrame :=
  filter (fun r => Qle_bool t0 (time_s r) && Qle_bool (time_s r) t1) df.

(** ** Crossing locators *)

Inductive direction : Type := up | down.

(** The locators return a triple [(time, value_before, value_after)]; the
    source's [(None, None, None)] is [None]. *)
Definition crossing : Type := option (Q * Q * Q).

(** [values >= target_value] for 'up', [values <= target_value] otherwise. *)
Definition reaches (d : direction) (target v : Q) : bool :=
  match d with
  | up => Qle_bool target v
  | down => Qle_bool v target
  end.

Definition crossing_mask (d : direction) (target : Q) (values : list Q) : list bool :=
  map (reaches d target) values.

(** Lines 48-54, the tail shared by both directions. *)
Definition interpolate_crossing
    (target value_before value_after time_before time_after : Q) : exc crossing :=
  if Qeq_bool value_after value_before then
    Ok (Some (time_before, value_before, value_after))
  else
    fraction <- qdiv (target - value_before) (value_after - value_before) ;;
    let interpolated_time := time_before + fraction * (time_after - time_before) in
    Ok (Some (interpolated_time, value_before, value_after)).

Definition find_crossing_time_with_interpolation
    (df : WorkFrame) (target_value : Q) (value_column time_column : column)
    (d : direction) : exc crossing :=
  let values := col value_column df in
  let times := col time_column df in
  let mask := crossing_mask d target_value values in
  if negb (np_any mask) then Ok None
  else
    let first_idx := np_argmax mask in
    if Nat.eqb first_idx 0 then
      t0 <- getitem times 0 ;;
      v0 <- getitem values 0 ;;
      Ok (Some (t0, v0, v0))
    else
      value_before <- getitem values (first_idx - 1) ;;
      value_after <- getitem values first_idx ;;
      time_before <- getitem times (first_idx - 1) ;;
      time_after <- getitem times first_idx ;;
      interpolate_crossing target_value value_before value_after time_before time_after.

(** The sample at index [idx], as the triple [(times[idx], values[idx], values[idx])]. *)
Definition sample_at (times values : list Q) (idx : nat) : exc crossing :=
  t <- getitem times idx ;;
  v <- getitem values idx ;;
  Ok (Some (t, v, v)).

(** Lines 67-76 and 83-92: the choice between the crossing sample and its
    predecessor, the same in both directions. *)
Definition nearer_of (times values : list Q) (target_value : Q) (first_idx : nat)
  : exc crossing :=
  if Nat.ltb 0 first_idx then
    prev <- getitem values (first_idx - 1) ;;
    curr <- getitem values first_idx ;;
    let dist_prev := Qabs (prev - target_value) in
    let dist_curr := Qabs (curr - target_value) in
    if Qlt_bool dist_prev dist_curr then sample_at times values (first_idx - 1)
    else sample_at times values first_idx
  else sample_at times values first_idx.

(** On an empty frame the 'up' fallback evaluates [times[-1]], which numpy
    rejects with IndexError; with natural-number indices [length - 1] is [0]
    there and [getitem] raises the same exception. *)
Definition find_nearest_value
    (df : WorkFrame) (target_value : Q) (value_column time_column : column)
    (d : direction) : exc crossing :=
  let values := col value_column df in
  let times := col time_column df in
  let mask := crossing_mask d target_value values in
  if negb (np_any mask) then
    match d with
    | up => sample_at times values (length values - 1)
    | down => sample_at times values 0
    end
  else nearer_of times values target_value (np_argmax mask).

(** The call sites select the locator by [use_interpolation]. *)
Definition locate (use_interpolation : bool)
    (df : WorkFrame) (target_value : Q) (value_column : column) : exc crossing :=
  if use_interpolation then
    find_crossing_time_with_interpolation df target_value value_column Time_s up
  else
    find_nearest_value df target_value value_column Time_s up.

(** ** Measurements *)

(** [speeds / 3.6]: km/h to m/s. *)
Definition kmh_to_ms (v : Q) : Q := v / (36 # 10).

(** Lines 135-140 (and 208-213): the distance travelled over a frame,
    [np.sum(avg_speeds * time_diffs)]. *)
Definition pair_distances (data : WorkFrame) : list Q :=
  let times := col Time_s data in
  let speeds_ms := map kmh_to_ms (col Vehicle_Speed data) in
  let time_diffs := np_diff times in
  let avg_speeds := map (fun s => s / 2) (map2 Qplus (but_last speeds_ms) (from_1 speeds_ms)) in
  map2 Qmult avg_speeds time_diffs.

Definition travelled (data : WorkFrame) : Q := np_sum (pair_distances data).

(** The dictionaries returned by the three measurements; the constant entry
    ['filename': 'uploaded_file'] carries no information and is left out. *)
Record speed_result : Type := mkSpeedResult {
  s_start_speed : Q;
  s_end_speed : Q;
  s_time : Q;
  s_distance : Q;
  s_avg_acceleration : Q;
  s_start_time : Q;
  s_end_time : Q
}.

Record rpm_result : Type := mkRpmResult {
  r_start_rpm : Q;
  r_end_rpm : Q;
  r_start_speed : Q;
  r_end_speed : Q;
  r_time : Q;
  r_distance : Q;
  r_start_time : Q;
  r_end_time : Q
}.

Record distance_result : Type := mkDistanceResult {
  d_start_speed : Q;
  d_end_speed : Q;
  d_distance : Q;
  d_time : Q;
  d_avg_speed : Q;
  d_start_time : Q;
  d_end_time : Q
}.

Definition calculate_speed_acceleration_body
    (df : DataFrame) (speed_from speed_to : Q) (use_interpolation : bool)
  : exc (option speed_result) :=
  let df_work := with_time_s df in
  start <- locate use_interpolation df_work speed_from Vehicle_Speed ;;
  match start with
  | None => Ok None
  | Some (start_time, start_before, start_after) =>
    let df_after_start := after start_time df_work in
    if Nat.eqb (length df_after_start) 0 then Ok None
    else
      stop <- locate use_interpolation df_after_start speed_to Vehicle_Speed ;;
      match stop with
      | None => Ok None
      | Some (end_time, end_before, end_after) =>
        let acceleration_data := between start_time end_time df_work in
        if Nat.ltb (length acceleration_data) 2 then Ok None
        else
          let speeds_ms := map kmh_to_ms (col Vehicle_Speed acceleration_data) in
          let distance := travelled acceleration_data in
          let acceleration_time := end_time - start_time in
          last_speed <- getitem speeds_ms (length speeds_ms - 1) ;;
          first_speed <- getitem speeds_ms 0 ;;
          avg_acceleration <-
            (if Qlt_bool 0 acceleration_time
             then qdiv (last_speed - first_speed) acceleration_time
             else Ok 0) ;;
          let actual_speed_from := if use_interpolation then speed_from else start_after in
          let actual_speed_to := if use_interpolation then speed_to else end_after in
          Ok (Some (mkSpeedResult actual_speed_from actual_speed_to acceleration_time
                      distance avg_acceleration start_time end_time))
      end
  end.

Definition calculate_speed_acceleration
    (df : DataFrame) (speed_from speed_to : Q) (use_interpolation : bool)
  : option speed_result :=
  try_except (calculate_speed_acceleration_body df speed_from speed_to use_interpolation).

Definition calculate_rpm_acceleration_body
    (df : DataFrame) (rpm_from rpm_to : Q) (use_interpolation : bool)
  : exc (option rpm_result) :=
  let df_work := with_time_s df in
  start <- locate use_interpolation df_work rpm_from Engine_Speed ;;
  match start with
  | None => Ok None
  | Some (start_time, start_before, start_after) =>
    let df_after_start := after start_time df_work in
    if Nat.eqb (length df_after_start) 0 then Ok None
    else
      stop <- locate use_interpolation df_after_start rpm_to Engine_Speed ;;
      match stop with
      | None => Ok None
      | Some (end_time, end_before, end_after) =>
        let acceleration_data := between start_time end_time df_work in
        if Nat.ltb (length acceleration_data) 2 then Ok None
        else
          let distance := travelled acceleration_data in
          let acceleration_time := end_time - start_time in
          let actual_rpm_from := if use_interpolation then rpm_from else start_after in
          let actual_rpm_to := if use_interpolation then rpm_to else end_after in
          actual_speed_from <-
            np_interp start_time (col Time_s df_work) (col Vehicle_Speed df_work) ;;
          actual_speed_to <-
            np_interp end_time (col Time_s df_work) (col Vehicle_Speed df_work) ;;
          Ok (Some (mkRpmResult actual_rpm_from actual_rpm_to actual_speed_from
                      actual_speed_to acceleration_time distance start_time end_time))
      end
  end.

Definition calculate_rpm_acceleration
    (df : DataFrame) (rpm_from rpm_to : Q) (use_interpolation : bool)
  : option rpm_result :=
  try_except (calculate_rpm_acceleration_body df rpm_from rpm_to use_interpolation).

(** [cumulative_distance >= target_distance] *)
Definition distance_mask (target_distance : Q) (cumulative_distance : list Q) : list bool :=
  map (fun c => Qle_bool target_distance c) cumulative_distance.

(** Lines 285-289. *)
Definition interpolate_end_time
    (target_distance dist_before dist_after time_before time_after : Q) : exc Q :=
  if Qeq_bool dist_after dist_before then Ok time_before
  else
    fraction <- qdiv (target_distance - dist_before) (dist_after - dist_before) ;;
    Ok (time_before + fraction * (time_after - time_before)).

Definition calculate_distance_time_body
    (df : DataFrame) (start_speed target_distance : Q) (use_interpolation : bool)
  : exc (option distance_result) :=
  let df_work := with_time_s df in
  start <- locate use_interpolation df_work start_speed Vehicle_Speed ;;
  match start with
  | None => Ok None
  | Some (start_time, start_before, start_after) =>
    let df_after_start := after start_time df_work in
    if Nat.ltb (length df_after_start) 2 then Ok None
    else
      let times := col Time_s df_after_start in
      let cumulative_distance := np_cumsum (pair_distances df_after_start) in
      let mask := distance_mask target_distance cumulative_distance in
      if negb (np_any mask) then Ok None
      else
        let target_idx := np_argmax mask in
        if Nat.eqb target_idx 0 then Ok None
        else
          dist_before <-
            (if Nat.ltb 0 target_idx then getitem cumulative_distance (target_idx - 1)
             else Ok 0) ;;
          dist_after <- getitem cumulative_distance target_idx ;;
          time_before <- getitem times target_idx ;;
          time_after <- getitem times (target_idx + 1) ;;
          end_time <-
            interpolate_end_time target_distance dist_before dist_after
              time_before time_after ;;
          let total_time := end_time - start_time in
          let actual_start_speed := if use_interpolation then start_speed else start_after in
          actual_end_speed <-
            np_interp end_time (col Time_s df_work) (col Vehicle_Speed df_work) ;;
          avg_speed_kmh <-
            (if Qlt_bool 0 total_time
             then q <- qdiv target_distance total_time ;; Ok (q * (36 # 10))
             else Ok 0) ;;
          Ok (Some (mkDistanceResult actual_start_speed actual_end_speed target_distance
                      total_time avg_speed_kmh start_time end_time))
  end.

Definition calculate_distance_time
    (df : DataFrame) (start_speed target_distance : Q) (use_interpolation : bool)
  : option distance_result :=
  try_except (calculate_distance_time_body df start_speed target_distance use_interpolation).

(** ** Test series *)

(** Samples at the whole seconds [0 .. n-1] with the given speed and engine
    speed at second [k]. *)
Definition series (n : nat) (speed_at rpm_at : nat -> Q) : DataFrame :=
  map (fun k => mkRow (inject_Z (Z.of_nat k) * 1000) (speed_at k) (rpm_at k)) (seq 0 n).

Definition constant_50 : DataFrame := series 11 (fun _ => 50) (fun _ => 3000).
Definition steps_of_10 : DataFrame :=
  series 11 (fun k => inject_Z (Z.of_nat k) * 10) (fun k => inject_Z (Z.of_nat k) * 10).
Definition ramp_36 : DataFrame :=
  series 11 (fun k => inject_Z (Z.of_nat k) * 36) (fun k => 1000 + inject_Z (Z.of_nat k) * 500).

(** ** Vocabulary of the statements *)

(** [i] is the first index whose value satisfies the direction's comparison. *)
Definition first_reaching (d : direction) (target : Q) (values : list Q) (i : nat) : Prop :=
  (exists v, nth_error values i = Some v /\ reaches d target v = true) /\
  (forall j v, (j < i)%nat -> nth_error values j = Some v -> reaches d target v = false).

Definition none_reaching (d : direction) (target : Q) (values : list Q) : Prop :=
  Forall (fun v => reaches d target v = false) values.

(** The triple a locator returns for the sample in row [r]. *)
Definition row_sample (tc vc : column) (r : wrow) : Q * Q * Q :=
  (cell tc r, cell vc r, cell vc r).

(** The trapezoidal sum of the statements: over consecutive samples
    [(t_i, v_i)], the sum of [avg(v_i, v_{i+1}) * (t_{i+1} - t_i)]. *)
Fixpoint trapezoid (samples : list (Q * Q)) : Q :=
  match samples with
  | (t0, v0) :: rest =>
      match rest with
      | (t1, v1) :: _ => (v0 + v1) / 2 * (t1 - t0) + trapezoid rest
      | [] => 0
      end
  | [] => 0
  end.

(** The samples of a frame as (time in s, speed in m/s). *)
Definition speed_samples (data : WorkFrame) : list (Q * Q) :=
  map (fun r => (time_s r, speed_kmh (base r) / (36 # 10))) data.

(** A log of one sample. *)
Definition single_sample : DataFrame := series 1 (fun _ => 50) (fun _ => 3000).



Fixpoint nondecreasing_from (x : Q) (rest : list Q) : bool :=
  match rest with
  | [] => true
  | y :: rest' => Qle_bool x y && nondecreasing_from y rest'
  end.

Definition nondecreasing (a : list Q) : bool :=
  match a with
  | [] => true
  | x :: rest => nondecreasing_from x rest
  end.

(** The 'Time [ms]' and 'Vehicle Speed [km/h]' columns of an uploaded log. *)
Definition log_times (df : DataFrame) : list Q := map time_ms df.
Definition log_speeds (df : DataFrame) : list Q := map speed_kmh df.

(** No speed of the log is negative. *)
Definition speeds_nonnegative (df : DataFrame) : bool :=
  forallb (fun v => Qle_bool 0 v) (log_speeds df).

(** ** The result tables of [main] *)

(** [f"{x:.3f}"] read back by [float]: [x] rounded to three decimals, a tie
    going to the even neighbour. *)
Definition round_half_even (x : Q) : Z :=
  let n := Qfloor x in
  match Qcompare (x - inject_Z n) (1 # 2) with
  | Lt => n
  | Gt => (n + 1)%Z
  | Eq => if Z.even n then n else (n + 1)%Z
  end.

Definition format_3f (x : Q) : Q := inject_Z (round_half_even (x * 1000)) / 1000.

(** [list.sort(key=...)]: library code, stable; modelled as insertion of each
    element before the first already placed element whose key is not smaller. *)
Fixpoint insert_by {A : Type} (key : A -> Q) (x : A) (l : list A) : list A :=
  match l with
  | [] => [x]
  | y :: rest =>
      if Qle_bool (key x) (key y) then x :: y :: rest else y :: insert_by key x rest
  end.

Fixpoint sort_by {A : Type} (key : A -> Q) (l : list A) : list A :=
  match l with
  | [] => []
  | x :: rest => insert_by key x (sort_by key rest)
  end.

(** A row of a result table: the file name and, when the measurement returned
    a result, that result, whose formatted cells the row shows; a row without
    one shows 'Нет данных' in every cell. *)
Definition table_row (R : Type) : Type := (String.string * option R)%type.

Definition has_data {R : Type} (row : table_row R) : bool :=
  match snd row with Some _ => true | None => false end.

(** [float(x[i])] on the time cell of a row with data. *)
Definition displayed_time {R : Type} (time_of : R -> Q) (row : table_row R) : Q :=
  match snd row with
  | Some r => format_3f (time_of r)
  | None => 0
  end.

(** Lines 395-398 (and 466-469, 512-515). *)
Definition sorted_results {R : Type} (time_of : R -> Q) (results : list (table_row R))
  : list (table_row R) :=
  let valid_results := sort_by (displayed_time time_of) (filter has_data results) in
  let invalid_results := filter (fun row => negb (has_data row)) results in
  valid_results ++ invalid_results.

(** What pressing a tab's button shows. *)
Inductive shown (R : Type) : Type :=
| Nothing                                   (* no file uploaded: [main] has returned *)
| Rejected                                  (* [st.error] on the two inputs *)
| Table (rows : list (table_row R)).        (* [st.dataframe(df_results)] *)

Arguments Nothing {R}.
Arguments Rejected {R}.
Arguments Table {R} rows.

(** Lines 377-390: one row per uploaded file, in upload order. *)
Definition speed_results (files : list (DataFrame * String.string))
    (speed_from speed_to : Q) (use_interpolation : bool) : list (table_row speed_result) :=
  map (fun f => (snd f, calculate_speed_acceleration (fst f) speed_from speed_to
                          use_interpolation))
      files.

(** Lines 347-349 and 371-407: the speed tab. *)
Definition speed_table (files : list (DataFrame * String.string))
    (speed_from speed_to : Q) (use_interpolation : bool) : shown speed_result :=
  match files with
  | [] => Nothing
  | _ =>
      if Qle_bool speed_to speed_from then Rejected
      else Table (sorted_results s_time
                    (speed_results files speed_from speed_to use_interpolation))
  end.

(** Lines 447-461. *)
Definition rpm_results (files : list (DataFrame * String.string))
    (rpm_from rpm_to : Q) (use_interpolation : bool) : list (table_row rpm_result) :=
  map (fun f => (snd f, calculate_rpm_acceleration (fst f) rpm_from rpm_to use_interpolation))
      files.

(** Lines 347-349 and 441-477: the RPM tab. *)
Definition rpm_table (files : list (DataFrame * String.string))
    (rpm_from rpm_to : Q) (use_interpolation : bool) : shown rpm_result :=
  match files with
  | [] => Nothing
  | _ =>
      if Qle_bool rpm_to rpm_from then Rejected
      else Table (sorted_results r_time
                    (rpm_results files rpm_from rpm_to use_interpolation))
  end.

(** Lines 494-507. *)
Definition distance_results (files : list (DataFrame * String.string))
    (distance_speed target_distance : Q) (use_interpolation : bool)
  : list (table_row distance_result) :=
  map (fun f => (snd f, calculate_distance_time (fst f) distance_speed target_distance
                          use_interpolation))
      files.

(** Lines 347-349 and 488-523: the distance tab. *)
Definition distance_table (files : list (DataFrame * String.string))
    (distance_speed target_distance : Q) (use_interpolation : bool)
  : shown distance_result :=
  match files with
  | [] => Nothing
  | _ =>
      if Qle_bool distance_speed 0 || Qle_bool target_distance 0 then Rejected
      else Table (sorted_results d_time
                    (distance_results files distance_speed target_distance
                       use_interpolation))
  end.

(** The order of a displayed table with respect to the per-file rows: the same
    rows, those with data first and in nondecreasing order of their displayed
    time, followed by the rows without data in upload order. *)
Definition table_ordered {R : Type} (time_of : R -> Q)
    (results rows : list (table_row R)) : Prop :=
  Permutation results rows /\
  exists valid,
    rows = valid ++ filter (fun row => negb (has_data row)) results /\
    Forall (fun row => has_data row = true) valid /\
    StronglySorted
      (fun a b => displayed_time time_of a <= displayed_time time_of b) valid.

(** The rows with data whose displayed time is [k]. *)
Definition rows_displaying {R : Type} (time_of : R -> Q) (k : Q)
    (rows : list (table_row R)) : list (table_row R) :=
  filter (fun row => has_data row && Qeq_bool (displayed_time time_of row) k) rows.

(** Two uploaded logs: the constant one and the ramp. *)
Definition two_logs : list (DataFrame * String.string) :=
  [(constant_50, "flat.csv"%string); (ramp_36, "pull.csv"%string)].

(** ** logSL: automatic column selection *)

(** [target_columns] of [auto_select_columns]. *)
Definition target_columns : list String.string :=
  ["Time [ms]"%string; "Engine Speed (RPM) [1/min]"%string; "Vehicle Speed [km/h]"%string].

(** [x in xs] on a list of strings. *)
Definition str_in (x : String.string) (xs : list String.string) : bool :=
  existsb (String.eqb x) xs.

Definition auto_select_columns (columns : list String.string) : list String.string :=
  filter (fun c => str_in c target_columns) columns.

(** A dictionary with string keys and values, as the list of its items, and
    [d[key]], which is [None] where Python raises KeyError. *)
Definition dict : Type := list (String.string * String.string).

Fixpoint dict_get (key : String.string) (d : dict) : option String.string :=
  match d with
  | [] => None
  | (k, v) :: rest => if String.eqb key k then Some v else dict_get key rest
  end.

(** [target_column] of [auto_set_last_row_settings]. *)
Definition target_column : String.string := "Engine Speed (RPM) [1/min]"%string.

Definition auto_set_last_row_settings (columns : list String.string) : dict :=
  if str_in target_column columns then
    [("method"%string, "column"%string);
     ("column"%string, target_column);
     ("operator"%string, ">="%string);
     ("value"%string, "1"%string)]
  else [("method"%string, "none"%string)].

(** * Properties *)

(** ** The exception monad *)

Lemma bind_Ok {A B : Type} (m : exc A) (k : A -> exc B) (b : B) :
  bind m k = Ok b -> exists a, m = Ok a /\ k a = Ok b.
Proof.
  destruct m as [a | e]; simpl; intros H.
  - exists a. split; [ reflexivity | exact H ].
  - discriminate.
Qed.

(** One step of a body that returned: name the value of the first action. *)
Tactic Notation "bind_inv" hyp(H) "as" simple_intropattern(x) simple_intropattern(Hx) :=
  apply bind_Ok in H as [x [Hx H]].

Lemma try_except_Some {A : Type} (body : exc (option A)) (r : A) :
  try_except body = Some r -> body = Ok (Some r).
Proof.
  destruct body as [[a |] | e]; simpl; intros H; congruence.
Qed.

(** ** Comparisons on rationals *)

Lemma Qlt_bool_true (a b : Q) : Qlt_bool a b = true <-> a < b.
Proof.
  unfold Qlt_bool. rewrite negb_true_iff.
  split; intros H.
  - apply Qnot_le_lt. intros Hle. apply Qle_bool_iff in Hle. congruence.
  - destruct (Qle_bool b a) eqn:E; trivial.
    apply Qle_bool_iff in E. exfalso. apply (Qlt_irrefl a). eapply Qlt_le_trans; eauto.
Qed.

Lemma Qlt_bool_false (a b : Q) : Qlt_bool a b = false <-> b <= a.
Proof.
  unfold Qlt_bool. rewrite negb_false_iff. apply Qle_bool_iff.
Qed.

Lemma Qle_bool_false (a b : Q) : Qle_bool a b = false <-> b < a.
Proof.
  rewrite <- Qlt_bool_true. unfold Qlt_bool. rewrite negb_true_iff. tauto.
Qed.

Lemma Qeq_bool_false (a b : Q) : Qeq_bool a b = false <-> ~ a == b.
Proof.
  split; intros H.
  - intros E. apply Qeq_bool_iff in E. congruence.
  - destruct (Qeq_bool a b) eqn:E; trivial. apply Qeq_bool_iff in E. contradiction.
Qed.

Lemma qdiv_Ok (a b : Q) : ~ b == 0 -> qdiv a b = Ok (a / b).
Proof.
  intros H. unfold qdiv. apply Qeq_bool_false in H. now rewrite H.
Qed.

Lemma qdiv_positive (a b : Q) : 0 < b -> qdiv a b = Ok (a / b).
Proof.
  intros H. apply qdiv_Ok. intros E. rewrite E in H. now apply Qlt_irrefl in H.
Qed.

(** The fraction of a crossing lies in the unit interval. *)
Lemma fraction_unit (target lo hi : Q) :
  lo < target -> target <= hi ->
  0 <= (target - lo) / (hi - lo) /\ (target - lo) / (hi - lo) <= 1.
Proof.
  intros H1 H2.
  assert (Hpos : 0 < hi - lo) by lra.
  split.
  - apply Qle_shift_div_l; trivial. lra.
  - apply Qle_shift_div_r; trivial. lra.
Qed.

(** A point between two times that are both at or after [L] is at or after [L]. *)
Lemma convex_lower (L tb ta f : Q) :
  0 <= f -> f <= 1 -> L <= tb -> L <= ta -> L <= tb + f * (ta - tb).
Proof.
  intros H0 H1 Hb Ha.
  assert (E : tb + f * (ta - tb) - L == (1 - f) * (tb - L) + f * (ta - L)) by ring.
  assert (P1 : 0 <= (1 - f) * (tb - L)) by (apply Qmult_le_0_compat; lra).
  assert (P2 : 0 <= f * (ta - L)) by (apply Qmult_le_0_compat; lra).
  lra.
Qed.

(** ** Arrays *)

Lemma getitem_Ok {A : Type} (a : list A) (i : nat) (x : A) :
  getitem a i = Ok x <-> nth_error a i = Some x.
Proof.
  unfold getitem. destruct (nth_error a i); split; intros H; congruence.
Qed.

Lemma getitem_lt {A : Type} (a : list A) (i : nat) :
  (i < length a)%nat -> exists x, getitem a i = Ok x.
Proof.
  intros H. unfold getitem.
  destruct (nth_error a i) eqn:E; [ eauto | ].
  apply nth_error_None in E. lia.
Qed.

Lemma getitem_col (c : column) (df : WorkFrame) (i : nat) (v : Q) :
  getitem (col c df) i = Ok v ->
  exists r, nth_error df i = Some r /\ In r df /\ v = cell c r.
Proof.
  intros H. apply getitem_Ok in H. unfold col in H.
  rewrite nth_error_map in H.
  destruct (nth_error df i) as [r |] eqn:E; simpl in H; [ | discriminate ].
  exists r. repeat split; [ eapply nth_error_In; eauto | congruence ].
Qed.

Lemma np_any_false (mask : list bool) :
  np_any mask = false <-> Forall (fun b => b = false) mask.
Proof.
  unfold np_any. induction mask as [| b rest IH]; simpl.
  - split; trivial.
  - rewrite orb_false_iff, IH. split.
    + intros [Hb Hr]. constructor; trivial.
    + intros H. inversion H; subst. split; trivial.
Qed.

(** [np.argmax] of a mask holding a [True] is the first index that holds one. *)
Lemma np_argmax_first (mask : list bool) :
  np_any mask = true ->
  nth_error mask (np_argmax mask) = Some true /\
  forall j, (j < np_argmax mask)%nat -> nth_error mask j = Some false.
Proof.
  induction mask as [| b rest IH]; simpl; [ discriminate | ].
  destruct b; simpl.
  - intros _. split; trivial. intros j Hj. lia.
  - intros Hany. unfold np_any in Hany, IH. fold (np_any rest). unfold np_any.
    rewrite Hany. destruct (IH Hany) as [Hat Hbefore].
    split; trivial.
    intros [| j] Hj; simpl; trivial. apply Hbefore. lia.
Qed.

Lemma np_argmax_lt (mask : list bool) :
  np_any mask = true -> (np_argmax mask < length mask)%nat.
Proof.
  intros H. apply np_argmax_first in H as [H _].
  apply nth_error_Some. congruence.
Qed.

Lemma length_col (c : column) (df : WorkFrame) : length (col c df) = length df.
Proof. apply length_map. Qed.

Lemma length_crossing_mask d target values :
  length (crossing_mask d target values) = length values.
Proof. apply length_map. Qed.

(** What the mask says about the values around the crossing index. *)
Lemma crossing_mask_at d target values i b :
  nth_error (crossing_mask d target values) i = Some b ->
  exists v, nth_error values i = Some v /\ reaches d target v = b.
Proof.
  unfold crossing_mask. rewrite nth_error_map.
  destruct (nth_error values i) as [v |]; simpl; intros H; [ | discriminate ].
  exists v. split; congruence.
Qed.

(** ** The crossing index *)

Lemma none_reaching_any d target values :
  none_reaching d target values <-> np_any (crossing_mask d target values) = false.
Proof.
  unfold none_reaching, crossing_mask. rewrite np_any_false, Forall_map. tauto.
Qed.

Lemma first_reaching_argmax d target values i :
  first_reaching d target values i ->
  np_any (crossing_mask d target values) = true /\
  np_argmax (crossing_mask d target values) = i.
Proof.
  intros [[v [Hv Hr]] Hbefore].
  assert (Hany : np_any (crossing_mask d target values) = true).
  { destruct (np_any (crossing_mask d target values)) eqn:E; trivial.
    apply none_reaching_any in E. unfold none_reaching in E.
    rewrite Forall_forall in E. apply nth_error_In in Hv. rewrite (E _ Hv) in Hr. discriminate. }
  split; trivial.
  destruct (np_argmax_first _ Hany) as [Hat Hfalse].
  destruct (Nat.lt_trichotomy (np_argmax (crossing_mask d target values)) i) as [Hlt | [Heq | Hgt]];
    trivial.
  - apply crossing_mask_at in Hat as [w [Hw Hrw]].
    rewrite (Hbefore _ _ Hlt Hw) in Hrw. discriminate.
  - specialize (Hfalse _ Hgt). apply crossing_mask_at in Hfalse as [w [Hw Hrw]].
    congruence.
Qed.

Lemma argmax_first_reaching d target values :
  np_any (crossing_mask d target values) = true ->
  first_reaching d target values (np_argmax (crossing_mask d target values)).
Proof.
  intros Hany. destruct (np_argmax_first _ Hany) as [Hat Hfalse].
  split.
  - apply crossing_mask_at in Hat. exact Hat.
  - intros j v Hj Hv. specialize (Hfalse _ Hj).
    apply crossing_mask_at in Hfalse as [w [Hw Hrw]]. congruence.
Qed.

(** Just before the crossing index the value is strictly on the other side of
    the target, so the two bracketing values differ. *)
Lemma bracket_strict d target vb va :
  reaches d target vb = false -> reaches d target va = true ->
  ~ va - vb == 0 /\
  0 <= (target - vb) / (va - vb) /\ (target - vb) / (va - vb) <= 1.
Proof.
  destruct d; simpl; intros Hb Ha.
  - apply Qle_bool_false in Hb. apply Qle_bool_iff in Ha.
    split; [ lra | apply fraction_unit; trivial ].
  - apply Qle_bool_false in Hb. apply Qle_bool_iff in Ha.
    split; [ lra | ].
    assert (E : (target - vb) / (va - vb) == (- target - - vb) / (- va - - vb)).
    { field. lra. }
    rewrite E. apply fraction_unit; lra.
Qed.

Lemma getitem_row (c : column) (df : WorkFrame) (i : nat) (r : wrow) :
  nth_error df i = Some r -> getitem (col c df) i = Ok (cell c r).
Proof.
  intros H. apply getitem_Ok. unfold col. rewrite nth_error_map, H. reflexivity.
Qed.

Lemma first_reaching_rows d target c df i :
  first_reaching d target (col c df) (S i) ->
  forall rb ra, nth_error df i = Some rb -> nth_error df (S i) = Some ra ->
  reaches d target (cell c rb) = false /\ reaches d target (cell c ra) = true.
Proof.
  intros [[v [Hv Hr]] Hbefore] rb ra Hb Ha.
  assert (Hvb := getitem_row c df i rb Hb). apply getitem_Ok in Hvb.
  assert (Hva := getitem_row c df (S i) ra Ha). apply getitem_Ok in Hva.
  split.
  - apply (Hbefore i); [ lia | exact Hvb ].
  - congruence.
Qed.

(** ** The interpolating locator *)

Lemma interpolate_crossing_bracket d target vb va tb ta :
  reaches d target vb = false -> reaches d target va = true ->
  interpolate_crossing target vb va tb ta =
  Ok (Some (tb + (target - vb) / (va - vb) * (ta - tb), vb, va)).
Proof.
  intros Hb Ha. destruct (bracket_strict d target vb va Hb Ha) as [Hne _].
  unfold interpolate_crossing.
  assert (E : Qeq_bool va vb = false) by (apply Qeq_bool_false; lra).
  rewrite E, (qdiv_Ok _ _ Hne). reflexivity.
Qed.

Lemma find_crossing_none df target vc tc d :
  none_reaching d target (col vc df) ->
  find_crossing_time_with_interpolation df target vc tc d = Ok None.
Proof.
  intros H. apply none_reaching_any in H.
  unfold find_crossing_time_with_interpolation. now rewrite H.
Qed.

Lemma find_crossing_at_0 df target vc tc d r0 :
  first_reaching d target (col vc df) 0 -> nth_error df 0 = Some r0 ->
  find_crossing_time_with_interpolation df target vc tc d =
  Ok (Some (cell tc r0, cell vc r0, cell vc r0)).
Proof.
  intros H H0. apply first_reaching_argmax in H as [Hany Hidx].
  unfold find_crossing_time_with_interpolation.
  rewrite Hany, Hidx. simpl.
  rewrite (getitem_row tc df 0 r0 H0), (getitem_row vc df 0 r0 H0). reflexivity.
Qed.

Lemma find_crossing_at_S df target vc tc d i rb ra :
  first_reaching d target (col vc df) (S i) ->
  nth_error df i = Some rb -> nth_error df (S i) = Some ra ->
  find_crossing_time_with_interpolation df target vc tc d =
  Ok (Some (cell tc rb
            + (target - cell vc rb) / (cell vc ra - cell vc rb) * (cell tc ra - cell tc rb),
            cell vc rb, cell vc ra)).
Proof.
  intros H Hb Ha.
  destruct (first_reaching_rows _ _ _ _ _ H rb ra Hb Ha) as [Hrb Hra].
  apply first_reaching_argmax in H as [Hany Hidx].
  unfold find_crossing_time_with_interpolation.
  rewrite Hany, Hidx. simpl. rewrite Nat.sub_0_r.
  rewrite (getitem_row vc df i rb Hb), (getitem_row vc df (S i) ra Ha),
          (getitem_row tc df i rb Hb), (getitem_row tc df (S i) ra Ha).
  simpl. eapply interpolate_crossing_bracket; eauto.
Qed.

(** C3.  Interpolated-mode locate, in either direction: NotFound when no
    sample satisfies the comparison; the first sample's own time and value when
    the crossing index is 0; otherwise the time interpolated between the
    sample before the crossing index and the crossing sample with
    fraction = (target - valueBefore) / (valueAfter - valueBefore), together
    with the two bracketing values.  On the values 0,10,...,100 at the times
    0,1,...,10, target 25 upwards gives time 2.5 between the values 20 and 30. *)
Theorem find_crossing_time_with_interpolation_spec :
  (forall df target vc tc d,
     (none_reaching d target (col vc df) ->
      find_crossing_time_with_interpolation df target vc tc d = Ok None) /\
     (forall r0,
        first_reaching d target (col vc df) 0 -> nth_error df 0 = Some r0 ->
        find_crossing_time_with_interpolation df target vc tc d =
        Ok (Some (cell tc r0, cell vc r0, cell vc r0))) /\
     (forall i rb ra,
        first_reaching d target (col vc df) (S i) ->
        nth_error df i = Some rb -> nth_error df (S i) = Some ra ->
        let fraction := (target - cell vc rb) / (cell vc ra - cell vc rb) in
        find_crossing_time_with_interpolation df target vc tc d =
        Ok (Some (cell tc rb + fraction * (cell tc ra - cell tc rb),
                  cell vc rb, cell vc ra)))) /\
  (exists t vb va,
     find_crossing_time_with_interpolation (with_time_s steps_of_10) 25
       Vehicle_Speed Time_s up = Ok (Some (t, vb, va)) /\
     t == 25 # 10 /\ vb == 20 /\ va == 30).
Proof.
  split.
  - intros df target vc tc d. split; [ | split ].
    + apply find_crossing_none.
    + intros r0. apply find_crossing_at_0.
    + intros i rb ra H Hb Ha. cbv zeta. eapply find_crossing_at_S; eassumption.
  - eexists _, _, _. split; [ vm_compute; reflexivity | ].
    repeat split; reflexivity.
Qed.

(** ** The nearest-sample locator *)

Lemma sample_at_row tc vc df i r :
  nth_error df i = Some r ->
  sample_at (col tc df) (col vc df) i = Ok (Some (row_sample tc vc r)).
Proof.
  intros H. unfold sample_at.
  rewrite (getitem_row tc df i r H), (getitem_row vc df i r H). reflexivity.
Qed.

Lemma nth_error_last {A : Type} (l : list A) (x : A) :
  l <> [] -> nth_error l (length l - 1) = Some (last l x).
Proof.
  induction l as [| a [| b rest] IH]; intros Hne; [ contradiction | reflexivity | ].
  replace (length (a :: b :: rest) - 1)%nat with (S (length (b :: rest) - 1))
    by (simpl; lia).
  change (last (a :: b :: rest) x) with (last (b :: rest) x).
  simpl nth_error. apply IH. discriminate.
Qed.

Lemma find_nearest_none_up df target vc tc rl :
  none_reaching up target (col vc df) -> nth_error df (length df - 1) = Some rl ->
  find_nearest_value df target vc tc up = Ok (Some (row_sample tc vc rl)).
Proof.
  intros H Hl. apply none_reaching_any in H.
  unfold find_nearest_value. rewrite H. simpl. rewrite length_col.
  now apply sample_at_row.
Qed.

Lemma find_nearest_none_down df target vc tc r0 :
  none_reaching down target (col vc df) -> nth_error df 0 = Some r0 ->
  find_nearest_value df target vc tc down = Ok (Some (row_sample tc vc r0)).
Proof.
  intros H H0. apply none_reaching_any in H.
  unfold find_nearest_value. rewrite H. simpl. now apply sample_at_row.
Qed.

Lemma find_nearest_at_0 df target vc tc d r0 :
  first_reaching d target (col vc df) 0 -> nth_error df 0 = Some r0 ->
  find_nearest_value df target vc tc d = Ok (Some (row_sample tc vc r0)).
Proof.
  intros H H0. apply first_reaching_argmax in H as [Hany Hidx].
  unfold find_nearest_value. rewrite Hany, Hidx. simpl.
  unfold nearer_of. simpl. now apply sample_at_row.
Qed.

Lemma find_nearest_at_S df target vc tc d i rb ra :
  first_reaching d target (col vc df) (S i) ->
  nth_error df i = Some rb -> nth_error df (S i) = Some ra ->
  find_nearest_value df target vc tc d =
  if Qlt_bool (Qabs (cell vc rb - target)) (Qabs (cell vc ra - target))
  then Ok (Some (row_sample tc vc rb))
  else Ok (Some (row_sample tc vc ra)).
Proof.
  intros H Hb Ha. apply first_reaching_argmax in H as [Hany Hidx].
  unfold find_nearest_value. rewrite Hany, Hidx. simpl.
  unfold nearer_of. simpl. rewrite Nat.sub_0_r.
  rewrite (getitem_row vc df i rb Hb), (getitem_row vc df (S i) ra Ha). simpl.
  rewrite (sample_at_row tc vc df i rb Hb), (sample_at_row tc vc df (S i) ra Ha).
  reflexivity.
Qed.

Lemma nth_error_row (df : WorkFrame) (i : nat) :
  (i < length df)%nat -> exists r, nth_error df i = Some r.
Proof.
  intros H. destruct (nth_error df i) eqn:E; [ eauto | ].
  apply nth_error_None in E. lia.
Qed.

(** The nearest-sample locator returns the triple of some row of the frame. *)
Lemma find_nearest_is_row df target vc tc d :
  df <> [] ->
  exists r, In r df /\ find_nearest_value df target vc tc d = Ok (Some (row_sample tc vc r)).
Proof.
  intros Hne.
  assert (Hlen : (0 < length df)%nat) by (destruct df; [ contradiction | simpl; lia ]).
  destruct (np_any (crossing_mask d target (col vc df))) eqn:Hany.
  - pose proof (argmax_first_reaching _ _ _ Hany) as Hfirst.
    pose proof (np_argmax_lt _ Hany) as Hlt.
    rewrite length_crossing_mask, length_col in Hlt.
    destruct (np_argmax (crossing_mask d target (col vc df))) as [| i] eqn:Hidx.
    + destruct (nth_error_row df 0 Hlen) as [r0 H0].
      exists r0. split; [ eapply nth_error_In; eauto | ].
      eapply find_nearest_at_0; eauto.
    + destruct (nth_error_row df i ltac:(lia)) as [rb Hb].
      destruct (nth_error_row df (S i) Hlt) as [ra Ha].
      rewrite (find_nearest_at_S _ _ _ tc _ _ _ _ Hfirst Hb Ha).
      destruct (Qlt_bool _ _); [ exists rb | exists ra ]; split; trivial;
        eapply nth_error_In; eauto.
  - apply none_reaching_any in Hany.
    destruct d.
    + destruct (nth_error_row df (length df - 1) ltac:(lia)) as [rl Hl].
      exists rl. split; [ eapply nth_error_In; eauto | ].
      now apply find_nearest_none_up.
    + destruct (nth_error_row df 0 Hlen) as [r0 H0].
      exists r0. split; [ eapply nth_error_In; eauto | ].
      now apply find_nearest_none_down.
Qed.

(** C2.  Nearest-mode locate on a non-empty series.  With no sample reaching
    the target, direction up returns the last sample and direction down the
    first one.  Otherwise, with the crossing index at 0 it returns that sample,
    and with a predecessor it returns the predecessor when its value is
    strictly closer to the target in absolute distance and the crossing-index
    sample when that one is closer or at the same distance.  In no case is the
    result NotFound. *)
Theorem find_nearest_value_spec :
  forall df target vc tc, df <> [] ->
    (none_reaching up target (col vc df) ->
     find_nearest_value df target vc tc up =
     Ok (Some (row_sample tc vc (last df (mkWRow (mkRow 0 0 0) 0))))) /\
    (none_reaching down target (col vc df) ->
     forall r0, nth_error df 0 = Some r0 ->
     find_nearest_value df target vc tc down = Ok (Some (row_sample tc vc r0))) /\
    (forall d r0,
       first_reaching d target (col vc df) 0 -> nth_error df 0 = Some r0 ->
       find_nearest_value df target vc tc d = Ok (Some (row_sample tc vc r0))) /\
    (forall d i rb ra,
       first_reaching d target (col vc df) (S i) ->
       nth_error df i = Some rb -> nth_error df (S i) = Some ra ->
       (Qabs (cell vc rb - target) < Qabs (cell vc ra - target) ->
        find_nearest_value df target vc tc d = Ok (Some (row_sample tc vc rb))) /\
       (Qabs (cell vc ra - target) <= Qabs (cell vc rb - target) ->
        find_nearest_value df target vc tc d = Ok (Some (row_sample tc vc ra)))) /\
    (forall d, find_nearest_value df target vc tc d <> Ok None).
Proof.
  intros df target vc tc Hne. split; [ | split; [ | split; [ | split ] ] ].
  - intros H. apply find_nearest_none_up; trivial. now apply nth_error_last.
  - intros H r0 H0. now apply find_nearest_none_down.
  - intros d r0. apply find_nearest_at_0.
  - intros d i rb ra Hfirst Hb Ha.
    rewrite (find_nearest_at_S _ _ _ tc _ _ _ _ Hfirst Hb Ha). split.
    + intros Hlt. apply Qlt_bool_true in Hlt. now rewrite Hlt.
    + intros Hle. apply Qlt_bool_false in Hle. now rewrite Hle.
  - intros d. destruct (find_nearest_is_row df target vc tc d Hne) as [r [_ E]].
    rewrite E. discriminate.
Qed.

(** ** Where a located time lies *)

Lemma find_crossing_inv df target vc tc d t vb va :
  find_crossing_time_with_interpolation df target vc tc d = Ok (Some (t, vb, va)) ->
  (exists r0, nth_error df 0 = Some r0 /\ (t, vb, va) = row_sample tc vc r0) \/
  (exists i rb ra,
     nth_error df i = Some rb /\ nth_error df (S i) = Some ra /\
     reaches d target (cell vc rb) = false /\ reaches d target (cell vc ra) = true /\
     t = cell tc rb
         + (target - cell vc rb) / (cell vc ra - cell vc rb) * (cell tc ra - cell tc rb) /\
     vb = cell vc rb /\ va = cell vc ra).
Proof.
  intros H.
  destruct (np_any (crossing_mask d target (col vc df))) eqn:Hany.
  - pose proof (argmax_first_reaching _ _ _ Hany) as Hfirst.
    pose proof (np_argmax_lt _ Hany) as Hlt.
    rewrite length_crossing_mask, length_col in Hlt.
    destruct (np_argmax (crossing_mask d target (col vc df))) as [| i].
    + destruct (nth_error_row df 0 Hlt) as [r0 H0].
      rewrite (find_crossing_at_0 _ _ _ tc _ _ Hfirst H0) in H.
      left. exists r0. split; trivial. unfold row_sample. congruence.
    + destruct (nth_error_row df i ltac:(lia)) as [rb Hb].
      destruct (nth_error_row df (S i) Hlt) as [ra Ha].
      rewrite (find_crossing_at_S _ _ _ tc _ _ _ _ Hfirst Hb Ha) in H.
      destruct (first_reaching_rows _ _ _ _ _ Hfirst rb ra Hb Ha) as [Hrb Hra].
      right. exists i, rb, ra. repeat split; trivial; congruence.
  - apply none_reaching_any in Hany.
    rewrite (find_crossing_none _ _ _ tc _ Hany) in H. discriminate.
Qed.

Lemma find_nearest_inv df target vc tc d c :
  find_nearest_value df target vc tc d = Ok c ->
  exists r, In r df /\ c = Some (row_sample tc vc r).
Proof.
  intros H. destruct df as [| r0 rest].
  - destruct d; cbv in H; discriminate.
  - destruct (find_nearest_is_row (r0 :: rest) target vc tc d ltac:(discriminate))
      as [r [Hin E]].
    exists r. split; trivial. congruence.
Qed.

(** Every located time lies at or after a lower bound on the frame's times. *)
Lemma locate_time_lower ui df target vc L t vb va :
  Forall (fun r => L <= time_s r) df ->
  locate ui df target vc = Ok (Some (t, vb, va)) -> L <= t.
Proof.
  intros HL H. rewrite Forall_forall in HL.
  destruct ui; simpl in H.
  - apply find_crossing_inv in H as [[r0 [H0 E]] | [i [rb [ra [Hb [Ha [Hrb [Hra [Et _]]]]]]]]].
    + apply nth_error_In in H0. inversion E; subst. apply (HL _ H0).
    + apply nth_error_In in Hb, Ha. subst t.
      destruct (bracket_strict _ _ _ _ Hrb Hra) as [_ [F0 F1]].
      apply convex_lower; trivial; [ apply (HL _ Hb) | apply (HL _ Ha) ].
  - apply find_nearest_inv in H as [r [Hin E]].
    inversion E; subst. apply (HL _ Hin).
Qed.

Lemma after_lower (t : Q) (df : WorkFrame) :
  Forall (fun r => t <= time_s r) (after t df).
Proof.
  apply Forall_forall. intros r Hin. unfold after in Hin.
  apply filter_In in Hin as [_ H]. now apply Qle_bool_iff.
Qed.

(** ** Unfolding a returned result *)

Lemma calculate_speed_acceleration_inv df speed_from speed_to ui r :
  calculate_speed_acceleration df speed_from speed_to ui = Some r ->
  exists st sb sa et eb ea,
    locate ui (with_time_s df) speed_from Vehicle_Speed = Ok (Some (st, sb, sa)) /\
    locate ui (after st (with_time_s df)) speed_to Vehicle_Speed = Ok (Some (et, eb, ea)) /\
    (2 <= length (between st et (with_time_s df)))%nat /\
    s_start_time r = st /\ s_end_time r = et /\ s_time r = et - st /\
    s_distance r = travelled (between st et (with_time_s df)) /\
    s_start_speed r = (if ui then speed_from else sa) /\
    s_end_speed r = (if ui then speed_to else ea).
Proof.
  intros H. apply try_except_Some in H.
  unfold calculate_speed_acceleration_body in H.
  bind_inv H as [[[st sb] sa] |] Hstart; [ | discriminate ].
  destruct (Nat.eqb _ 0); [ discriminate | ].
  bind_inv H as [[[et eb] ea] |] Hstop; [ | discriminate ].
  destruct (Nat.ltb _ 2) eqn:Hlen; [ discriminate | ].
  apply Nat.ltb_ge in Hlen.
  bind_inv H as last_speed _.
  bind_inv H as first_speed _.
  bind_inv H as avg _.
  inversion H; subst r; clear H. simpl.
  exists st, sb, sa, et, eb, ea. repeat split; trivial.
Qed.

Lemma calculate_rpm_acceleration_inv df rpm_from rpm_to ui r :
  calculate_rpm_acceleration df rpm_from rpm_to ui = Some r ->
  exists st sb sa et eb ea,
    locate ui (with_time_s df) rpm_from Engine_Speed = Ok (Some (st, sb, sa)) /\
    locate ui (after st (with_time_s df)) rpm_to Engine_Speed = Ok (Some (et, eb, ea)) /\
    (2 <= length (between st et (with_time_s df)))%nat /\
    r_start_time r = st /\ r_end_time r = et /\ r_time r = et - st /\
    r_distance r = travelled (between st et (with_time_s df)) /\
    r_start_rpm r = (if ui then rpm_from else sa) /\
    r_end_rpm r = (if ui then rpm_to else ea) /\
    np_interp st (col Time_s (with_time_s df)) (col Vehicle_Speed (with_time_s df))
      = Ok (r_start_speed r) /\
    np_interp et (col Time_s (with_time_s df)) (col Vehicle_Speed (with_time_s df))
      = Ok (r_end_speed r).
Proof.
  intros H. apply try_except_Some in H.
  unfold calculate_rpm_acceleration_body in H.
  bind_inv H as [[[st sb] sa] |] Hstart; [ | discriminate ].
  destruct (Nat.eqb _ 0); [ discriminate | ].
  bind_inv H as [[[et eb] ea] |] Hstop; [ | discriminate ].
  destruct (Nat.ltb _ 2) eqn:Hlen; [ discriminate | ].
  apply Nat.ltb_ge in Hlen.
  bind_inv H as speed_a Ha.
  bind_inv H as speed_b Hb.
  inversion H; subst r; clear H. simpl.
  exists st, sb, sa, et, eb, ea. repeat split; trivial.
Qed.

Lemma calculate_distance_time_inv df start_speed target_distance ui r :
  calculate_distance_time df start_speed target_distance ui = Some r ->
  exists st sb sa,
    let suffix := after st (with_time_s df) in
    let cumulative := np_cumsum (pair_distances suffix) in
    let idx := np_argmax (distance_mask target_distance cumulative) in
    locate ui (with_time_s df) start_speed Vehicle_Speed = Ok (Some (st, sb, sa)) /\
    (2 <= length suffix)%nat /\
    np_any (distance_mask target_distance cumulative) = true /\
    (0 < idx)%nat /\
    (exists db da tb ta,
       getitem cumulative (idx - 1) = Ok db /\ getitem cumulative idx = Ok da /\
       getitem (col Time_s suffix) idx = Ok tb /\
       getitem (col Time_s suffix) (idx + 1) = Ok ta /\
       interpolate_end_time target_distance db da tb ta = Ok (d_end_time r)) /\
    d_start_time r = st /\ d_time r = d_end_time r - st /\
    d_distance r = target_distance /\
    d_start_speed r = (if ui then start_speed else sa) /\
    np_interp (d_end_time r) (col Time_s (with_time_s df))
      (col Vehicle_Speed (with_time_s df)) = Ok (d_end_speed r).
Proof.
  intros H. apply try_except_Some in H.
  unfold calculate_distance_time_body in H.
  bind_inv H as [[[st sb] sa] |] Hstart; [ | discriminate ].
  destruct (Nat.ltb _ 2) eqn:Hlen; [ discriminate | ].
  apply Nat.ltb_ge in Hlen.
  destruct (np_any _) eqn:Hany; [ | discriminate ]. simpl negb in H. cbv iota in H.
  destruct (Nat.eqb _ 0) eqn:Hidx; [ discriminate | ].
  apply Nat.eqb_neq in Hidx.
  assert (Hpos : (0 < np_argmax (distance_mask target_distance
                        (np_cumsum (pair_distances (after st (with_time_s df))))))%nat) by lia.
  apply Nat.ltb_lt in Hpos as Hposb. rewrite Hposb in H.
  bind_inv H as db Hdb.
  bind_inv H as da Hda.
  bind_inv H as tb Htb.
  bind_inv H as ta Hta.
  bind_inv H as et Het.
  bind_inv H as es Hes.
  bind_inv H as avg _.
  inversion H; subst r; clear H. simpl.
  exists st, sb, sa. repeat split; trivial.
  exists db, da, tb, ta. repeat split; trivial.
Qed.

(** ** Trapezoidal integration *)

Lemma pair_distances_cons (r0 r1 : wrow) (rest : WorkFrame) :
  pair_distances (r0 :: r1 :: rest) =
  (kmh_to_ms (speed_kmh (base r0)) + kmh_to_ms (speed_kmh (base r1))) / 2
    * (time_s r1 - time_s r0)
  :: pair_distances (r1 :: rest).
Proof. reflexivity. Qed.

Lemma pair_distances_one (r0 : wrow) : pair_distances [r0] = [].
Proof. reflexivity. Qed.

Lemma length_pair_distances (data : WorkFrame) :
  length (pair_distances data) = (length data - 1)%nat.
Proof.
  destruct data as [| r0 rest]; [ reflexivity | ].
  revert r0. induction rest as [| r1 rest IH]; intros r0; [ reflexivity | ].
  rewrite pair_distances_cons. simpl length. rewrite IH. simpl. lia.
Qed.

Lemma np_sum_from (a : list Q) (acc : Q) :
  fold_left Qplus a acc == acc + fold_right Qplus 0 a.
Proof.
  revert acc. induction a as [| x rest IH]; intros acc; simpl.
  - ring.
  - rewrite IH. ring.
Qed.

Lemma np_sum_cons (x : Q) (a : list Q) : np_sum (x :: a) == x + np_sum a.
Proof.
  unfold np_sum. simpl. rewrite !np_sum_from. ring.
Qed.

(** The vectorised computation of the source is the trapezoidal sum. *)
Lemma travelled_trapezoid (data : WorkFrame) :
  travelled data == trapezoid (speed_samples data).
Proof.
  unfold travelled.
  destruct data as [| r0 rest]; [ reflexivity | ].
  revert r0. induction rest as [| r1 rest IH]; intros r0; [ reflexivity | ].
  rewrite pair_distances_cons, np_sum_cons, IH.
  simpl. unfold kmh_to_ms. reflexivity.
Qed.

Lemma length_cumsum_from (acc : Q) (a : list Q) : length (cumsum_from acc a) = length a.
Proof.
  revert acc. induction a as [| x rest IH]; intros acc; simpl; [ | rewrite IH ]; reflexivity.
Qed.

Lemma length_np_cumsum (a : list Q) : length (np_cumsum a) = length a.
Proof.
  destruct a as [| x rest]; simpl; [ | rewrite length_cumsum_from ]; reflexivity.
Qed.

(** ** numpy.interp returns a value on a non-empty frame *)

Lemma interp_scan_total (x x0 f0 : Q) (rest : list (Q * Q)) :
  x0 <= x -> exists y, interp_scan x x0 f0 rest = Ok y.
Proof.
  revert x0 f0. induction rest as [| [x1 f1] rest IH]; intros x0 f0 Hle; simpl.
  - eauto.
  - destruct (Qlt_bool x x1) eqn:Hlt.
    + apply Qlt_bool_true in Hlt.
      destruct (Qeq_bool x0 x) eqn:Heq; [ eauto | ].
      apply Qeq_bool_false in Heq.
      rewrite qdiv_positive; [ simpl; eauto | ].
      assert (x0 < x) by (apply Qle_lt_or_eq in Hle as [H | H]; [ trivial | contradiction ]).
      lra.
    + apply Qlt_bool_false in Hlt. now apply IH.
Qed.

Lemma np_interp_total (x : Q) (c1 c2 : column) (df : WorkFrame) :
  df <> [] -> exists y, np_interp x (col c1 df) (col c2 df) = Ok y.
Proof.
  intros Hne. destruct df as [| r0 rest]; [ contradiction | ].
  unfold np_interp. simpl combine. cbv iota beta.
  destruct (Qlt_bool x (cell c1 r0)) eqn:Hlt; [ eauto | ].
  destruct (Qlt_bool _ x); [ eauto | ].
  apply interp_scan_total. now apply Qlt_bool_false.
Qed.

(** ** The locators raise only on an empty frame *)

Lemma find_crossing_total df target vc tc d :
  exists c, find_crossing_time_with_interpolation df target vc tc d = Ok c.
Proof.
  destruct (np_any (crossing_mask d target (col vc df))) eqn:Hany.
  - pose proof (argmax_first_reaching _ _ _ Hany) as Hfirst.
    pose proof (np_argmax_lt _ Hany) as Hlt.
    rewrite length_crossing_mask, length_col in Hlt.
    destruct (np_argmax (crossing_mask d target (col vc df))) as [| i].
    + destruct (nth_error_row df 0 Hlt) as [r0 H0].
      rewrite (find_crossing_at_0 _ _ _ tc _ _ Hfirst H0). eauto.
    + destruct (nth_error_row df i ltac:(lia)) as [rb Hb].
      destruct (nth_error_row df (S i) Hlt) as [ra Ha].
      rewrite (find_crossing_at_S _ _ _ tc _ _ _ _ Hfirst Hb Ha). eauto.
  - apply none_reaching_any in Hany.
    rewrite (find_crossing_none _ _ _ tc _ Hany). eauto.
Qed.

Lemma locate_total ui df target vc :
  df <> [] \/ ui = true -> exists c, locate ui df target vc = Ok c.
Proof.
  intros H. destruct ui; simpl.
  - apply find_crossing_total.
  - destruct H as [Hne | H]; [ | discriminate ].
    destruct (find_nearest_is_row df target vc Time_s up Hne) as [r [_ E]]. eauto.
Qed.

Lemma with_time_s_nonempty (df : DataFrame) : df <> [] -> with_time_s df <> [].
Proof. destruct df; [ contradiction | discriminate ]. Qed.

Lemma nonempty_length {A : Type} (l : list A) : (0 < length l)%nat -> l <> [].
Proof. destruct l; simpl; [ lia | discriminate ]. Qed.

Lemma after_nonempty (t : Q) (df : WorkFrame) : after t df <> [] -> df <> [].
Proof. destruct df; [ simpl; contradiction | discriminate ]. Qed.

Lemma between_nonempty (t0 t1 : Q) (df : WorkFrame) : between t0 t1 df <> [] -> df <> [].
Proof. destruct df; [ simpl; contradiction | discriminate ]. Qed.

(** ** The bracket of the target distance *)

Lemma distance_bracket (target : Q) (cumulative : list Q) (db da : Q) :
  let idx := np_argmax (distance_mask target cumulative) in
  np_any (distance_mask target cumulative) = true -> (0 < idx)%nat ->
  getitem cumulative (idx - 1) = Ok db -> getitem cumulative idx = Ok da ->
  db < target /\ target <= da.
Proof.
  intros idx Hany Hpos Hdb Hda.
  change (distance_mask target cumulative) with (crossing_mask up target cumulative) in *.
  destruct (argmax_first_reaching _ _ _ Hany) as [[v [Hv Hr]] Hbefore].
  apply getitem_Ok in Hdb, Hda. fold idx in Hv, Hbefore.
  split.
  - apply Qle_bool_false. apply (Hbefore (idx - 1)%nat db); [ lia | trivial ].
  - apply Qle_bool_iff. simpl in Hr. congruence.
Qed.

Lemma interpolate_end_time_bracket target db da tb ta :
  db < target -> target <= da ->
  interpolate_end_time target db da tb ta =
  Ok (tb + (target - db) / (da - db) * (ta - tb)).
Proof.
  intros H1 H2. unfold interpolate_end_time.
  assert (E : Qeq_bool da db = false) by (apply Qeq_bool_false; lra).
  rewrite E, qdiv_positive by lra. reflexivity.
Qed.

(** ** When the distance measurement returns a result *)

Lemma calculate_distance_time_progress df start_speed target_distance ui st sb sa :
  let suffix := after st (with_time_s df) in
  let cumulative := np_cumsum (pair_distances suffix) in
  locate ui (with_time_s df) start_speed Vehicle_Speed = Ok (Some (st, sb, sa)) ->
  (2 <= length suffix)%nat ->
  np_any (distance_mask target_distance cumulative) = true ->
  (0 < np_argmax (distance_mask target_distance cumulative))%nat ->
  exists r, calculate_distance_time df start_speed target_distance ui = Some r.
Proof.
  intros suffix cumulative Hstart Hlen Hany Hpos.
  pose proof (np_argmax_lt _ Hany) as Hlt.
  unfold distance_mask in Hlt at 2. rewrite length_map in Hlt.
  unfold cumulative in Hlt at 2. rewrite length_np_cumsum, length_pair_distances in Hlt.
  set (idx := np_argmax (distance_mask target_distance cumulative)) in *.
  assert (Hcum : length cumulative = (length suffix - 1)%nat).
  { unfold cumulative. now rewrite length_np_cumsum, length_pair_distances. }
  destruct (getitem_lt cumulative (idx - 1)) as [db Hdb]; [ lia | ].
  destruct (getitem_lt cumulative idx) as [da Hda]; [ lia | ].
  destruct (getitem_lt (col Time_s suffix) idx) as [tb Htb]; [ rewrite length_col; lia | ].
  destruct (getitem_lt (col Time_s suffix) (idx + 1)) as [ta Hta]; [ rewrite length_col; lia | ].
  destruct (distance_bracket _ _ _ _ Hany Hpos Hdb Hda) as [Hlo Hhi].
  pose proof (interpolate_end_time_bracket target_distance db da tb ta Hlo Hhi) as Het.
  set (et := tb + (target_distance - db) / (da - db) * (ta - tb)) in Het.
  destruct (np_interp_total et Time_s Vehicle_Speed (with_time_s df)) as [es Hes].
  { apply (after_nonempty st). apply nonempty_length. fold suffix. lia. }
  assert (Havg : exists avg,
             (if Qlt_bool 0 (et - st)
              then q <- qdiv target_distance (et - st) ;; Ok (q * (36 # 10))
              else Ok 0) = Ok avg).
  { destruct (Qlt_bool 0 (et - st)) eqn:E; [ | eauto ].
    apply Qlt_bool_true in E. rewrite qdiv_positive by trivial. simpl. eauto. }
  destruct Havg as [avg Havg].
  unfold calculate_distance_time, calculate_distance_time_body.
  rewrite Hstart. cbn [bind]. fold suffix. fold cumulative.
  apply Nat.ltb_ge in Hlen. rewrite Hlen.
  rewrite Hany. cbn [negb]. fold idx.
  assert (Hz : Nat.eqb idx 0 = false) by (apply Nat.eqb_neq; lia). rewrite Hz.
  apply Nat.ltb_lt in Hpos. rewrite Hpos.
  rewrite Hdb. cbn [bind]. rewrite Hda. cbn [bind]. rewrite Htb. cbn [bind].
  rewrite Hta. cbn [bind]. rewrite Het. cbn [bind]. rewrite Hes. cbn [bind].
  rewrite Havg. cbn [bind try_except]. eauto.
Qed.

(** C6.  On a non-empty series the distance-from-speed measurement returns
    NotFound exactly when the start crossing is not found, or the suffix of
    samples with time >= startTime has fewer than 2 samples, or no cumulative
    distance reaches targetDistance, or the first cumulative distance to reach
    it is at index 0; otherwise it returns a result. *)
Theorem calculate_distance_time_NotFound_iff :
  forall df start_speed target_distance ui, df <> [] ->
    calculate_distance_time df start_speed target_distance ui = None <->
    (locate ui (with_time_s df) start_speed Vehicle_Speed = Ok None \/
     exists st sb sa,
       locate ui (with_time_s df) start_speed Vehicle_Speed = Ok (Some (st, sb, sa)) /\
       let suffix := after st (with_time_s df) in
       let cumulative := np_cumsum (pair_distances suffix) in
       ((length suffix < 2)%nat \/
        none_reaching up target_distance cumulative \/
        first_reaching up target_distance cumulative 0)).
Proof.
  intros df start_speed target_distance ui Hne. split.
  - intros Hnone.
    destruct (locate_total ui (with_time_s df) start_speed Vehicle_Speed) as [c Hc].
    { left. now apply with_time_s_nonempty. }
    destruct c as [[[st sb] sa] |]; [ right | now left ].
    exists st, sb, sa. split; trivial. cbv zeta.
    destruct (le_lt_dec 2 (length (after st (with_time_s df)))) as [Hlen | Hlen];
      [ right | now left ].
    destruct (np_any (distance_mask target_distance
                (np_cumsum (pair_distances (after st (with_time_s df)))))) eqn:Hany.
    + right.
      pose proof (argmax_first_reaching up _ _ Hany) as Hfirst.
      change (crossing_mask up target_distance) with (distance_mask target_distance) in Hfirst.
      destruct (np_argmax _) eqn:Hidx in Hfirst; trivial.
      exfalso.
      destruct (calculate_distance_time_progress df start_speed target_distance ui
                  st sb sa Hc Hlen Hany) as [r Hr]; [ lia | congruence ].
    + left. now apply none_reaching_any.
  - intros [Hc | [st [sb [sa [Hc Hcases]]]]].
    + unfold calculate_distance_time, calculate_distance_time_body. now rewrite Hc.
    + destruct (calculate_distance_time df start_speed target_distance ui) as [r |] eqn:Hr;
        trivial.
      exfalso.
      apply calculate_distance_time_inv in Hr
        as [st' [sb' [sa' [Hc' [Hlen [Hany [Hpos _]]]]]]].
      rewrite Hc in Hc'. injection Hc' as <- <- <-.
      destruct Hcases as [H | [H | H]].
      * lia.
      * apply none_reaching_any in H.
        change (crossing_mask up target_distance) with (distance_mask target_distance) in H.
        congruence.
      * apply first_reaching_argmax in H as [_ H].
        change (crossing_mask up target_distance) with (distance_mask target_distance) in H.
        lia.
Qed.

(** C9.  The distance field of a distance-from-speed result is the requested
    target distance itself, not an integral: on speed(t) = 36 t km/h, from
    36 km/h over 100 m, the trapezoidal sum of the speed over the samples
    between the reported start and end times differs from the reported 100. *)
Theorem calculate_distance_time_distance :
  (forall df start_speed target_distance ui r,
     calculate_distance_time df start_speed target_distance ui = Some r ->
     d_distance r = target_distance) /\
  (exists r,
     calculate_distance_time ramp_36 36 100 true = Some r /\
     ~ d_distance r ==
       trapezoid (speed_samples
                    (between (d_start_time r) (d_end_time r) (with_time_s ramp_36)))).
Proof.
  split.
  - intros df start_speed target_distance ui r H.
    apply calculate_distance_time_inv in H as [st [sb [sa H]]].
    cbv zeta in H. tauto.
  - eexists. split; [ vm_compute; reflexivity | ].
    intros E. vm_compute in E. discriminate.
Qed.

(** C7.  Boundary values of the threshold-to-threshold measurements: with
    interpolation the requested fromValue and toValue; without it the
    valueAfter of the two nearest-sample locator calls, the second made on the
    suffix that starts at the first call's time. *)
Theorem boundary_values_reported :
  forall df from_value to_value,
    (forall r,
       calculate_speed_acceleration df from_value to_value true = Some r ->
       s_start_speed r = from_value /\ s_end_speed r = to_value) /\
    (forall r,
       calculate_rpm_acceleration df from_value to_value true = Some r ->
       r_start_rpm r = from_value /\ r_end_rpm r = to_value) /\
    (forall r,
       calculate_speed_acceleration df from_value to_value false = Some r ->
       exists t1 b1 a1 t2 b2 a2,
         find_nearest_value (with_time_s df) from_value Vehicle_Speed Time_s up
           = Ok (Some (t1, b1, a1)) /\
         find_nearest_value (after t1 (with_time_s df)) to_value Vehicle_Speed Time_s up
           = Ok (Some (t2, b2, a2)) /\
         s_start_speed r = a1 /\ s_end_speed r = a2) /\
    (forall r,
       calculate_rpm_acceleration df from_value to_value false = Some r ->
       exists t1 b1 a1 t2 b2 a2,
         find_nearest_value (with_time_s df) from_value Engine_Speed Time_s up
           = Ok (Some (t1, b1, a1)) /\
         find_nearest_value (after t1 (with_time_s df)) to_value Engine_Speed Time_s up
           = Ok (Some (t2, b2, a2)) /\
         r_start_rpm r = a1 /\ r_end_rpm r = a2).
Proof.
  intros df from_value to_value. split; [ | split; [ | split ] ].
  - intros r H. apply calculate_speed_acceleration_inv in H
      as [st [sb [sa [et [eb [ea [_ [_ [_ [_ [_ [_ [_ [H1 H2]]]]]]]]]]]]]].
    split; assumption.
  - intros r H. apply calculate_rpm_acceleration_inv in H
      as [st [sb [sa [et [eb [ea [_ [_ [_ [_ [_ [_ [_ [H1 [H2 _]]]]]]]]]]]]]]].
    split; assumption.
  - intros r H. apply calculate_speed_acceleration_inv in H
      as [st [sb [sa [et [eb [ea [Hs [He [_ [_ [_ [_ [_ [H1 H2]]]]]]]]]]]]]].
    exists st, sb, sa, et, eb, ea. auto.
  - intros r H. apply calculate_rpm_acceleration_inv in H
      as [st [sb [sa [et [eb [ea [Hs [He [_ [_ [_ [_ [_ [H1 [H2 _]]]]]]]]]]]]]]].
    exists st, sb, sa, et, eb, ea. auto.
Qed.

(** The claim C4 as stated fails for the start speed of the distance-from-speed
    result.  On the constant log (50 km/h), from 36 km/h over 20 m, the start
    is located at time 0, where numpy.interp of the speed column gives 50; the
    reported start speed is the requested 36 with interpolation and the
    sampled 50 without. *)
Lemma distance_start_speed_is_not_a_lookup :
  exists r r' v,
    calculate_distance_time constant_50 36 20 true = Some r /\
    calculate_distance_time constant_50 36 20 false = Some r' /\
    np_interp (d_start_time r) (col Time_s (with_time_s constant_50))
      (col Vehicle_Speed (with_time_s constant_50)) = Ok v /\
    v == 50 /\ d_start_speed r == 36 /\ d_start_speed r' == 50 /\
    ~ d_start_speed r == v.
Proof.
  eexists _, _, _.
  split; [ vm_compute; reflexivity | ].
  split; [ vm_compute; reflexivity | ].
  split; [ vm_compute; reflexivity | ].
  repeat split; try reflexivity.
  intros E. vm_compute in E. discriminate.
Qed.

(** C4, amended.  The vehicle speeds looked up at the boundary times -- both
    boundary speeds of the RPM-band measurement and the end speed of the
    distance-from-speed measurement -- are numpy.interp of the speed column of
    the full series at the boundary time, whatever the useInterpolation flag.
    The start speed of the distance-from-speed result is not a lookup and
    follows the flag: it is the requested start speed with interpolation, and
    the value-after of the nearest-sample locator call without. *)
Theorem derived_speeds_interpolated :
  forall df ui,
    let times := col Time_s (with_time_s df) in
    let speeds := col Vehicle_Speed (with_time_s df) in
    (forall rpm_from rpm_to r,
       calculate_rpm_acceleration df rpm_from rpm_to ui = Some r ->
       np_interp (r_start_time r) times speeds = Ok (r_start_speed r) /\
       np_interp (r_end_time r) times speeds = Ok (r_end_speed r)) /\
    (forall start_speed target_distance r,
       calculate_distance_time df start_speed target_distance ui = Some r ->
       np_interp (d_end_time r) times speeds = Ok (d_end_speed r)) /\
    (forall start_speed target_distance r,
       calculate_distance_time df start_speed target_distance ui = Some r ->
       if ui then d_start_speed r = start_speed
       else exists t vb va,
              find_nearest_value (with_time_s df) start_speed Vehicle_Speed Time_s up
                = Ok (Some (t, vb, va)) /\
              d_start_speed r = va).
Proof.
  intros df ui times speeds. split; [ | split ].
  - intros rpm_from rpm_to r H. apply calculate_rpm_acceleration_inv in H
      as [st [sb [sa [et [eb [ea [_ [_ [_ [Est [Eet [_ [_ [_ [_ [H1 H2]]]]]]]]]]]]]]]].
    subst st et. split; assumption.
  - intros start_speed target_distance r H. apply calculate_distance_time_inv in H
      as [st [sb [sa H]]].
    cbv zeta in H. destruct H as (_ & _ & _ & _ & _ & _ & _ & _ & _ & H). exact H.
  - intros start_speed target_distance r H. apply calculate_distance_time_inv in H
      as [st [sb [sa H]]].
    cbv zeta in H. destruct H as (Hs & _ & _ & _ & _ & _ & _ & _ & Hv & _).
    destruct ui; [ exact Hv | ].
    exists st, sb, sa. split; [ exact Hs | exact Hv ].
Qed.

(** ** The measurements raise only on an empty frame *)

Lemma calculate_speed_acceleration_body_total df speed_from speed_to ui :
  df <> [] \/ ui = true ->
  exists o, calculate_speed_acceleration_body df speed_from speed_to ui = Ok o.
Proof.
  intros H. unfold calculate_speed_acceleration_body. cbv zeta.
  destruct (locate_total ui (with_time_s df) speed_from Vehicle_Speed) as [c Hc].
  { destruct H; [ left; now apply with_time_s_nonempty | now right ]. }
  rewrite Hc. cbn [bind].
  destruct c as [[[st sb] sa] |]; [ | eauto ].
  destruct (Nat.eqb (length (after st (with_time_s df))) 0) eqn:E0; [ eauto | ].
  apply Nat.eqb_neq in E0.
  destruct (locate_total ui (after st (with_time_s df)) speed_to Vehicle_Speed) as [c2 Hc2].
  { left. apply nonempty_length. lia. }
  rewrite Hc2. cbn [bind].
  destruct c2 as [[[et eb] ea] |]; [ | eauto ].
  set (data := between st et (with_time_s df)).
  destruct (Nat.ltb (length data) 2) eqn:E2; [ eauto | ].
  apply Nat.ltb_ge in E2.
  assert (Hlen : length (map kmh_to_ms (col Vehicle_Speed data)) = length data)
    by now rewrite length_map, length_col.
  destruct (getitem_lt (map kmh_to_ms (col Vehicle_Speed data))
              (length (map kmh_to_ms (col Vehicle_Speed data)) - 1)) as [v1 Hv1]; [ lia | ].
  destruct (getitem_lt (map kmh_to_ms (col Vehicle_Speed data)) 0) as [v0 Hv0]; [ lia | ].
  rewrite Hv1. cbn [bind]. rewrite Hv0. cbn [bind].
  destruct (Qlt_bool 0 (et - st)) eqn:E; [ | cbn [bind]; eauto ].
  apply Qlt_bool_true in E. rewrite qdiv_positive by trivial. cbn [bind]. eauto.
Qed.

Lemma calculate_rpm_acceleration_body_total df rpm_from rpm_to ui :
  df <> [] \/ ui = true ->
  exists o, calculate_rpm_acceleration_body df rpm_from rpm_to ui = Ok o.
Proof.
  intros H. unfold calculate_rpm_acceleration_body. cbv zeta.
  destruct (locate_total ui (with_time_s df) rpm_from Engine_Speed) as [c Hc].
  { destruct H; [ left; now apply with_time_s_nonempty | now right ]. }
  rewrite Hc. cbn [bind].
  destruct c as [[[st sb] sa] |]; [ | eauto ].
  destruct (Nat.eqb (length (after st (with_time_s df))) 0) eqn:E0; [ eauto | ].
  apply Nat.eqb_neq in E0.
  destruct (locate_total ui (after st (with_time_s df)) rpm_to Engine_Speed) as [c2 Hc2].
  { left. apply nonempty_length. lia. }
  rewrite Hc2. cbn [bind].
  destruct c2 as [[[et eb] ea] |]; [ | eauto ].
  set (data := between st et (with_time_s df)).
  destruct (Nat.ltb (length data) 2) eqn:E2; [ eauto | ].
  apply Nat.ltb_ge in E2.
  assert (Hne : with_time_s df <> []).
  { apply (between_nonempty st et). apply nonempty_length. fold data. lia. }
  destruct (np_interp_total st Time_s Vehicle_Speed _ Hne) as [s1 Hs1].
  destruct (np_interp_total et Time_s Vehicle_Speed _ Hne) as [s2 Hs2].
  rewrite Hs1. cbn [bind]. rewrite Hs2. cbn [bind]. eauto.
Qed.

Lemma calculate_distance_time_body_total df start_speed target_distance ui :
  df <> [] \/ ui = true ->
  exists o, calculate_distance_time_body df start_speed target_distance ui = Ok o.
Proof.
  intros H.
  destruct (locate_total ui (with_time_s df) start_speed Vehicle_Speed) as [c Hc].
  { destruct H; [ left; now apply with_time_s_nonempty | now right ]. }
  destruct c as [[[st sb] sa] |].
  - destruct (Nat.ltb (length (after st (with_time_s df))) 2) eqn:E2.
    { unfold calculate_distance_time_body. rewrite Hc. cbn [bind]. rewrite E2. eexists; reflexivity. }
    destruct (np_any (distance_mask target_distance
                (np_cumsum (pair_distances (after st (with_time_s df)))))) eqn:Hany.
    2:{ unfold calculate_distance_time_body. rewrite Hc. cbn [bind].
        rewrite E2, Hany. eexists; reflexivity. }
    destruct (Nat.eqb (np_argmax (distance_mask target_distance
                (np_cumsum (pair_distances (after st (with_time_s df)))))) 0) eqn:Hidx.
    { unfold calculate_distance_time_body. rewrite Hc. cbn [bind].
      rewrite E2, Hany. cbn [negb]. rewrite Hidx. eexists; reflexivity. }
    apply Nat.ltb_ge in E2. apply Nat.eqb_neq in Hidx.
    destruct (calculate_distance_time_progress df start_speed target_distance ui
                st sb sa Hc E2 Hany) as [r Hr]; [ lia | ].
    apply try_except_Some in Hr. eauto.
  - unfold calculate_distance_time_body. rewrite Hc. cbn [bind]. eexists; reflexivity.
Qed.

Lemma nonempty_or_interpolating (df : DataFrame) (ui : bool) :
  (df <> [] \/ ui = true) \/ (df = [] /\ ui = false).
Proof.
  destruct df; [ destruct ui | ]; [ left; now right | right; now split | left; left; discriminate ].
Qed.

(** C10.  Every returned result ends no earlier than it starts, so its elapsed
    time is not negative.  This holds for every series, time-monotonic or not:
    the end time is either a sample time of the suffix that starts at the
    start time, or lies between two such sample times. *)
Theorem end_time_not_before_start_time :
  forall df ui,
    (forall speed_from speed_to r,
       calculate_speed_acceleration df speed_from speed_to ui = Some r ->
       s_start_time r <= s_end_time r /\ 0 <= s_time r) /\
    (forall rpm_from rpm_to r,
       calculate_rpm_acceleration df rpm_from rpm_to ui = Some r ->
       r_start_time r <= r_end_time r /\ 0 <= r_time r) /\
    (forall start_speed target_distance r,
       calculate_distance_time df start_speed target_distance ui = Some r ->
       d_start_time r <= d_end_time r /\ 0 <= d_time r).
Proof.
  intros df ui. split; [ | split ].
  - intros speed_from speed_to r H. apply calculate_speed_acceleration_inv in H
      as [st [sb [sa [et [eb [ea [_ [He [_ [Est [Eet [Et _]]]]]]]]]]]].
    apply locate_time_lower with (L := st) in He; [ | apply after_lower ].
    rewrite Est, Eet, Et. split; lra.
  - intros rpm_from rpm_to r H. apply calculate_rpm_acceleration_inv in H
      as [st [sb [sa [et [eb [ea [_ [He [_ [Est [Eet [Et _]]]]]]]]]]]].
    apply locate_time_lower with (L := st) in He; [ | apply after_lower ].
    rewrite Est, Eet, Et. split; lra.
  - intros start_speed target_distance r H. apply calculate_distance_time_inv in H
      as [st [sb [sa H]]].
    cbv zeta in H.
    destruct H as (_ & _ & Hany & Hpos & (db & da & tb & ta & Hdb & Hda & Htb & Hta & Het)
                   & Est & Et & _).
    destruct (distance_bracket _ _ _ _ Hany Hpos Hdb Hda) as [Hlo Hhi].
    rewrite (interpolate_end_time_bracket _ _ _ _ _ Hlo Hhi) in Het.
    pose proof (after_lower st (with_time_s df)) as HL. rewrite Forall_forall in HL.
    apply getitem_col in Htb as [rb [_ [Hinb Etb]]].
    apply getitem_col in Hta as [ra [_ [Hina Eta]]].
    apply HL in Hinb, Hina. simpl in Etb, Eta.
    destruct (fraction_unit target_distance db da Hlo Hhi) as [F0 F1].
    assert (Hle : st <= tb + (target_distance - db) / (da - db) * (ta - tb)).
    { apply convex_lower; trivial; subst; trivial. }
    injection Het as Het. rewrite Est, Et, <- Het. split; lra.
Qed.

(** C8.  The two zero-denominator guards return without dividing -- the
    locator the before-sample time and the bracketing values, the distance
    interpolation the earlier time -- and no quotient of the locators or of the
    three measurements ever has a zero denominator, on any series. *)
Theorem no_division_by_zero :
  (forall target value_before value_after time_before time_after,
     value_after == value_before ->
     interpolate_crossing target value_before value_after time_before time_after =
     Ok (Some (time_before, value_before, value_after))) /\
  (forall target_distance dist_before dist_after time_before time_after,
     dist_after == dist_before ->
     interpolate_end_time target_distance dist_before dist_after time_before time_after =
     Ok time_before) /\
  (forall df target vc tc d,
     find_crossing_time_with_interpolation df target vc tc d <> Raise ZeroDivision) /\
  (forall df from_value to_value ui,
     calculate_speed_acceleration_body df from_value to_value ui <> Raise ZeroDivision /\
     calculate_rpm_acceleration_body df from_value to_value ui <> Raise ZeroDivision /\
     calculate_distance_time_body df from_value to_value ui <> Raise ZeroDivision).
Proof.
  split; [ | split; [ | split ] ].
  - intros target vb va tb ta E. unfold interpolate_crossing.
    apply Qeq_bool_iff in E. now rewrite E.
  - intros target db da tb ta E. unfold interpolate_end_time.
    apply Qeq_bool_iff in E. now rewrite E.
  - intros df target vc tc d.
    destruct (find_crossing_total df target vc tc d) as [c E]. rewrite E. discriminate.
  - intros df from_value to_value ui.
    destruct (nonempty_or_interpolating df ui) as [H | [-> ->]].
    + destruct (calculate_speed_acceleration_body_total df from_value to_value ui H) as [o1 E1].
      destruct (calculate_rpm_acceleration_body_total df from_value to_value ui H) as [o2 E2].
      destruct (calculate_distance_time_body_total df from_value to_value ui H) as [o3 E3].
      rewrite E1, E2, E3. repeat split; discriminate.
    + repeat split; discriminate.
Qed.

(** C5.  The distance of a threshold-to-threshold speed measurement is the
    trapezoidal sum, in m/s, over the samples with startTime <= time <= endTime,
    and that slice has at least 2 samples; when the slice between the two
    located times has fewer than 2 samples the result is NotFound.  On
    speed(t) = 36 t km/h, t = 0..10 s, measuring from 36 to 72 km/h gives 1 s,
    10 m/s^2 and 15 m, exactly, in either mode. *)
Theorem distance_is_trapezoidal_sum :
  (forall df speed_from speed_to ui r,
     calculate_speed_acceleration df speed_from speed_to ui = Some r ->
     let slice := between (s_start_time r) (s_end_time r) (with_time_s df) in
     (2 <= length slice)%nat /\ s_distance r == trapezoid (speed_samples slice)) /\
  (forall df speed_from speed_to ui st sb sa et eb ea,
     locate ui (with_time_s df) speed_from Vehicle_Speed = Ok (Some (st, sb, sa)) ->
     locate ui (after st (with_time_s df)) speed_to Vehicle_Speed = Ok (Some (et, eb, ea)) ->
     (length (between st et (with_time_s df)) < 2)%nat ->
     calculate_speed_acceleration df speed_from speed_to ui = None) /\
  (forall ui, exists r,
     calculate_speed_acceleration ramp_36 36 72 ui = Some r /\
     s_time r == 1 /\ s_avg_acceleration r == 10 /\ s_distance r == 15).
Proof.
  split; [ | split ].
  - intros df speed_from speed_to ui r H. apply calculate_speed_acceleration_inv in H
      as [st [sb [sa [et [eb [ea [_ [_ [Hlen [Est [Eet [_ [Ed _]]]]]]]]]]]]].
    cbv zeta. rewrite Est, Eet, Ed. split; trivial. apply travelled_trapezoid.
  - intros df speed_from speed_to ui st sb sa et eb ea Hs He Hlen.
    unfold calculate_speed_acceleration, calculate_speed_acceleration_body.
    rewrite Hs. cbn [bind].
    destruct (Nat.eqb _ 0); [ reflexivity | ].
    rewrite He. cbn [bind].
    apply Nat.ltb_lt in Hlen. rewrite Hlen. reflexivity.
  - intros ui. destruct ui; eexists; (split; [ vm_compute; reflexivity | ]);
      repeat split; reflexivity.
Qed.

Lemma distance_is_trapezoidal_sum_witness :
  exists r,
    calculate_speed_acceleration ramp_36 0 100 false = Some r /\
    (2 <= length (between (s_start_time r) (s_end_time r) (with_time_s ramp_36)))%nat /\
    s_distance r ==
    trapezoid (speed_samples (between (s_start_time r) (s_end_time r) (with_time_s ramp_36))).
Proof.
  eexists. split.
  - vm_compute. reflexivity.
  - apply (proj1 distance_is_trapezoidal_sum ramp_36 0 100 false).
    vm_compute. reflexivity.
Defined.

(** The claim C1 as stated fails: the constant-speed measurement returns no
    result at all, in either mode. *)
Lemma constant_speed_has_no_result :
  ~ (exists ui r,
       calculate_speed_acceleration constant_50 50 50 ui = Some r /\
       s_time r == 0 /\ s_distance r == 0).
Proof.
  intros [ui [r [H _]]]. destruct ui; vm_compute in H; discriminate.
Qed.

(** C1, amended.  On the constant series (50 km/h at 0, 1, ..., 10 s), measuring
    from 50 to 50 km/h locates both crossings at the first sample, time 0; the
    slice from time 0 to time 0 holds that one sample only, and the measurement
    returns NotFound, in either mode. *)
Theorem constant_speed_NotFound :
  forall ui,
    (exists t0 v,
       locate ui (with_time_s constant_50) 50 Vehicle_Speed = Ok (Some (t0, v, v)) /\
       locate ui (after t0 (with_time_s constant_50)) 50 Vehicle_Speed = Ok (Some (t0, v, v)) /\
       t0 == 0 /\
       length (between t0 t0 (with_time_s constant_50)) = 1%nat) /\
    calculate_speed_acceleration constant_50 50 50 ui = None.
Proof.
  intros ui. destruct ui; (split; [ eexists _, _; split; [ | split; [ | split ] ] | ]);
    try (vm_compute; reflexivity).
Qed.

Lemma calculate_distance_time_distance_witness :
  exists r, calculate_distance_time ramp_36 36 100 true = Some r /\ d_distance r = 100.
Proof.
  eexists. split.
  - vm_compute. reflexivity.
  - apply (proj1 calculate_distance_time_distance ramp_36 36 100 true).
    vm_compute. reflexivity.
Defined.

Lemma calculate_distance_time_NotFound_iff_witness :
  ramp_36 <> [] /\ calculate_distance_time ramp_36 0 3 true = None.
Proof.
  assert (Hne : ramp_36 <> []) by discriminate.
  split; [ exact Hne | ].
  apply (calculate_distance_time_NotFound_iff ramp_36 0 3 true Hne).
  right. eexists _, _, _. split; [ vm_compute; reflexivity | ].
  right. right. split.
  - eexists. split; [ vm_compute; reflexivity | reflexivity ].
  - intros j v Hj. lia.
Defined.

Lemma find_nearest_value_spec_witness :
  with_time_s steps_of_10 <> [] /\
  exists rb,
    nth_error (with_time_s steps_of_10) 2 = Some rb /\
    cell Vehicle_Speed rb == 20 /\
    find_nearest_value (with_time_s steps_of_10) 24 Vehicle_Speed Time_s up =
    Ok (Some (row_sample Time_s Vehicle_Speed rb)).
Proof.
  assert (Hne : with_time_s steps_of_10 <> []) by discriminate.
  split; [ exact Hne | ].
  eexists. split; [ vm_compute; reflexivity | ].
  split; [ reflexivity | ].
  destruct (find_nearest_value_spec (with_time_s steps_of_10) 24 Vehicle_Speed Time_s Hne)
    as (_ & _ & _ & Hbracket & _).
  refine (proj1 (Hbracket up 2%nat _ _ _ _ _) _).
  - split.
    + eexists. split; [ vm_compute; reflexivity | reflexivity ].
    + intros j v Hj Hv. destruct j as [| [| [| j]]]; try lia;
        vm_compute in Hv; injection Hv as <-; reflexivity.
  - vm_compute. reflexivity.
  - vm_compute. reflexivity.
  - vm_compute. reflexivity.
Defined.

Lemma find_crossing_time_with_interpolation_spec_witness :
  exists rb ra,
    nth_error (with_time_s steps_of_10) 2 = Some rb /\
    nth_error (with_time_s steps_of_10) 3 = Some ra /\
    find_crossing_time_with_interpolation (with_time_s steps_of_10) 25
      Vehicle_Speed Time_s up =
    Ok (Some (time_s rb
              + (25 - speed_kmh (base rb)) / (speed_kmh (base ra) - speed_kmh (base rb))
                * (time_s ra - time_s rb),
              speed_kmh (base rb), speed_kmh (base ra))).
Proof.
  eexists _, _. split; [ vm_compute; reflexivity | ].
  split; [ vm_compute; reflexivity | ].
  destruct (proj1 find_crossing_time_with_interpolation_spec
              (with_time_s steps_of_10) 25 Vehicle_Speed Time_s up) as (_ & _ & Hbracket).
  apply (Hbracket 2%nat).
  - split.
    + eexists. split; [ vm_compute; reflexivity | reflexivity ].
    + intros j v Hj Hv. destruct j as [| [| [| j]]]; try lia;
        vm_compute in Hv; injection Hv as <-; reflexivity.
  - vm_compute. reflexivity.
  - vm_compute. reflexivity.
Defined.

Lemma derived_speeds_interpolated_witness :
  exists r,
    calculate_rpm_acceleration ramp_36 1200 2300 false = Some r /\
    np_interp (r_start_time r) (col Time_s (with_time_s ramp_36))
      (col Vehicle_Speed (with_time_s ramp_36)) = Ok (r_start_speed r) /\
    np_interp (r_end_time r) (col Time_s (with_time_s ramp_36))
      (col Vehicle_Speed (with_time_s ramp_36)) = Ok (r_end_speed r).
Proof.
  eexists. split.
  - vm_compute. reflexivity.
  - apply (proj1 (derived_speeds_interpolated ramp_36 false) 1200 2300).
    vm_compute. reflexivity.
Defined.

Lemma boundary_values_reported_witness :
  exists r,
    calculate_speed_acceleration ramp_36 36 72 true = Some r /\
    s_start_speed r = 36 /\ s_end_speed r = 72.
Proof.
  eexists. split.
  - vm_compute. reflexivity.
  - apply (proj1 (boundary_values_reported ramp_36 36 72)).
    vm_compute. reflexivity.
Defined.

Lemma end_time_not_before_start_time_witness :
  exists r,
    calculate_distance_time ramp_36 36 100 true = Some r /\
    d_start_time r <= d_end_time r /\ 0 <= d_time r.
Proof.
  eexists. split.
  - vm_compute. reflexivity.
  - apply (proj2 (proj2 (end_time_not_before_start_time ramp_36 true)) 36 100).
    vm_compute. reflexivity.
Defined.

Lemma no_division_by_zero_witness :
  20 == 20 /\
  interpolate_crossing 25 20 20 2 3 = Ok (Some (2, 20, 20)) /\
  interpolate_end_time 25 20 20 2 3 = Ok 2.
Proof.
  split; [ reflexivity | ].
  split.
  - apply (proj1 no_division_by_zero 25 20 20 2 3). reflexivity.
  - apply (proj1 (proj2 no_division_by_zero) 25 20 20 2 3). reflexivity.
Defined.

(** * Further properties of the locators *)

(** X2.  The interpolating locator brackets the target: the value after
    satisfies the direction's comparison, and the value before does not,
    unless the crossing is at the first sample, where both are its value. *)
Theorem interpolated_crossing_brackets_target :
  forall df target vc tc d t vb va,
    find_crossing_time_with_interpolation df target vc tc d = Ok (Some (t, vb, va)) ->
    reaches d target va = true /\
    (reaches d target vb = false \/
     exists r0, nth_error df 0 = Some r0 /\ (t, vb, va) = row_sample tc vc r0).
Proof.
  intros df target vc tc d t vb va H.
  destruct (np_any (crossing_mask d target (col vc df))) eqn:Hany.
  2:{ apply none_reaching_any in Hany.
      rewrite (find_crossing_none _ _ _ tc _ Hany) in H. discriminate. }
  pose proof (argmax_first_reaching _ _ _ Hany) as Hfirst.
  pose proof (np_argmax_lt _ Hany) as Hlt.
  rewrite length_crossing_mask, length_col in Hlt.
  destruct (np_argmax (crossing_mask d target (col vc df))) as [| i].
  - destruct (nth_error_row df 0 Hlt) as [r0 H0].
    rewrite (find_crossing_at_0 _ _ _ tc _ _ Hfirst H0) in H.
    destruct Hfirst as [[v [Hv Hr]] _].
    rewrite (proj1 (getitem_Ok _ _ _) (getitem_row vc df 0 r0 H0)) in Hv.
    injection Hv as <-. injection H as <- <- <-.
    split; [ exact Hr | right; exists r0; split; trivial ].
  - destruct (nth_error_row df i ltac:(lia)) as [rb Hb].
    destruct (nth_error_row df (S i) Hlt) as [ra Ha].
    rewrite (find_crossing_at_S _ _ _ tc _ _ _ _ Hfirst Hb Ha) in H.
    destruct (first_reaching_rows _ _ _ _ _ Hfirst rb ra Hb Ha) as [Hrb Hra].
    injection H as _ <- <-. split; [ exact Hra | left; exact Hrb ].
Qed.

Lemma interpolated_crossing_brackets_target_witness :
  exists t vb va,
    find_crossing_time_with_interpolation (with_time_s steps_of_10) 25
      Vehicle_Speed Time_s up = Ok (Some (t, vb, va)) /\
    reaches up 25 va = true /\
    (reaches up 25 vb = false \/
     exists r0, nth_error (with_time_s steps_of_10) 0 = Some r0 /\
                (t, vb, va) = row_sample Time_s Vehicle_Speed r0).
Proof.
  eexists _, _, _. split; [ vm_compute; reflexivity | ].
  apply (interpolated_crossing_brackets_target (with_time_s steps_of_10) 25
           Vehicle_Speed Time_s up).
  vm_compute. reflexivity.
Defined.

(** X4.  What the nearest-sample locator returns is read from one row of the
    frame: its time is that row's time, and value-before and value-after are
    both that row's value. *)
Theorem nearest_value_is_a_sample :
  forall df target vc tc d t vb va,
    find_nearest_value df target vc tc d = Ok (Some (t, vb, va)) ->
    vb = va /\ exists r, In r df /\ t = cell tc r /\ va = cell vc r.
Proof.
  intros df target vc tc d t vb va H.
  apply find_nearest_inv in H as [r [Hin E]].
  unfold row_sample in E. injection E as -> -> ->.
  split; [ reflexivity | exists r; auto ].
Qed.

Lemma nearest_value_is_a_sample_witness :
  exists t vb va,
    find_nearest_value (with_time_s steps_of_10) 24 Vehicle_Speed Time_s up
      = Ok (Some (t, vb, va)) /\
    vb = va /\
    exists r, In r (with_time_s steps_of_10) /\ t = cell Time_s r /\ va = cell Vehicle_Speed r.
Proof.
  eexists _, _, _. split; [ vm_compute; reflexivity | ].
  apply (nearest_value_is_a_sample (with_time_s steps_of_10) 24 Vehicle_Speed Time_s up).
  vm_compute. reflexivity.
Defined.

(** X5.  Exceptions of the locators.  The nearest-sample locator raises
    exactly on an empty frame, and then IndexError, in both directions; the
    interpolating locator never raises, and on an empty frame it reports
    NotFound. *)
Theorem locators_raise_only_on_empty_frame :
  (forall df target vc tc d e,
     find_nearest_value df target vc tc d = Raise e <-> df = [] /\ e = IndexError) /\
  (forall df target vc tc d e,
     find_crossing_time_with_interpolation df target vc tc d <> Raise e) /\
  (forall target vc tc d,
     find_crossing_time_with_interpolation [] target vc tc d = Ok None).
Proof.
  split; [ | split ].
  - intros df target vc tc d e. split.
    + intros H. destruct df as [| r0 rest].
      * split; trivial. destruct d; cbv in H; congruence.
      * destruct (find_nearest_is_row (r0 :: rest) target vc tc d ltac:(discriminate))
          as [r [_ E]].
        congruence.
    + intros [-> ->]. destruct d; reflexivity.
  - intros df target vc tc d e.
    destruct (find_crossing_total df target vc tc d) as [c E]. rewrite E. discriminate.
  - intros target vc tc d. destruct d; reflexivity.
Qed.

(** * Further properties of the measurements *)

Lemma Forall_filter_keep {A : Type} (P : A -> Prop) (f : A -> bool) (l : list A) :
  Forall P l -> Forall P (filter f l).
Proof.
  rewrite !Forall_forall. intros H x Hin. apply filter_In in Hin as [Hin _]. auto.
Qed.

Lemma length_filter_le {A : Type} (f : A -> bool) (l : list A) :
  (length (filter f l) <= length l)%nat.
Proof.
  induction l as [| x rest IH]; simpl; [ lia | ].
  destruct (f x); simpl; lia.
Qed.

Lemma length_with_time_s (df : DataFrame) : length (with_time_s df) = length df.
Proof. apply length_map. Qed.

(** X6.  A log with fewer than two samples gives no result, whatever the
    thresholds and the mode: no interval can be integrated. *)
Theorem short_log_has_no_result :
  forall df a b ui,
    (length df < 2)%nat ->
    calculate_speed_acceleration df a b ui = None /\
    calculate_rpm_acceleration df a b ui = None /\
    calculate_distance_time df a b ui = None.
Proof.
  intros df a b ui Hlen. split; [ | split ].
  - destruct (calculate_speed_acceleration df a b ui) as [r |] eqn:E; trivial.
    apply calculate_speed_acceleration_inv in E
      as (st & sb & sa & et & eb & ea & _ & _ & H2 & _).
    pose proof (length_filter_le
                  (fun r => Qle_bool st (time_s r) && Qle_bool (time_s r) et)
                  (with_time_s df)) as Hle.
    unfold between in H2. rewrite length_with_time_s in Hle. lia.
  - destruct (calculate_rpm_acceleration df a b ui) as [r |] eqn:E; trivial.
    apply calculate_rpm_acceleration_inv in E
      as (st & sb & sa & et & eb & ea & _ & _ & H2 & _).
    pose proof (length_filter_le
                  (fun r => Qle_bool st (time_s r) && Qle_bool (time_s r) et)
                  (with_time_s df)) as Hle.
    unfold between in H2. rewrite length_with_time_s in Hle. lia.
  - destruct (calculate_distance_time df a b ui) as [r |] eqn:E; trivial.
    apply calculate_distance_time_inv in E as (st & sb & sa & E).
    cbv zeta in E. destruct E as (_ & H2 & _).
    pose proof (length_filter_le (fun r => Qle_bool st (time_s r)) (with_time_s df)) as Hle.
    unfold after in H2. rewrite length_with_time_s in Hle. lia.
Qed.

Lemma short_log_has_no_result_witness :
  (length single_sample < 2)%nat /\
  calculate_speed_acceleration single_sample 10 20 true = None /\
  calculate_rpm_acceleration single_sample 10 20 true = None /\
  calculate_distance_time single_sample 10 20 true = None.
Proof.
  assert (H : (length single_sample < 2)%nat) by (simpl; lia).
  split; [ exact H | ].
  apply (short_log_has_no_result single_sample 10 20 true H).
Defined.

(** X7.  The [except] branch of a measurement is taken in one situation only:
    an empty log measured in nearest-sample mode, where the locator's
    IndexError is caught.  On every other input each NotFound comes from an
    explicit [return None]. *)
Theorem measurements_raise_only_on_empty_log :
  forall df a b ui e,
    (calculate_speed_acceleration_body df a b ui = Raise e <->
     df = [] /\ ui = false /\ e = IndexError) /\
    (calculate_rpm_acceleration_body df a b ui = Raise e <->
     df = [] /\ ui = false /\ e = IndexError) /\
    (calculate_distance_time_body df a b ui = Raise e <->
     df = [] /\ ui = false /\ e = IndexError).
Proof.
  intros df a b ui e.
  destruct (nonempty_or_interpolating df ui) as [H | [-> ->]].
  - destruct (calculate_speed_acceleration_body_total df a b ui H) as [o1 E1].
    destruct (calculate_rpm_acceleration_body_total df a b ui H) as [o2 E2].
    destruct (calculate_distance_time_body_total df a b ui H) as [o3 E3].
    rewrite E1, E2, E3.
    assert (Hno : ~ (df = [] /\ ui = false /\ e = IndexError)).
    { intros (-> & -> & _). destruct H as [H | H]; [ now apply H | discriminate ]. }
    split; [ | split ]; (split; intros X; [ discriminate | contradiction ]).
  - split; [ | split ];
      (split; [ intros X; cbv in X; repeat split; congruence
              | intros (_ & _ & ->); reflexivity ]).
Qed.

(** ** Ordered logs *)



Lemma nondecreasing_from_sorted (x : Q) (rest : list Q) :
  nondecreasing_from x rest = true -> StronglySorted Qle (x :: rest).
Proof.
  revert x. induction rest as [| y rest IH]; intros x H.
  - constructor; constructor.
  - simpl in H. apply andb_true_iff in H as [Hxy Hrest].
    apply Qle_bool_iff in Hxy. specialize (IH y Hrest).
    constructor; trivial.
    constructor; trivial.
    apply StronglySorted_inv in IH as [_ Hall].
    eapply Forall_impl; [ | exact Hall ].
    intros z Hz. eapply Qle_trans; eauto.
Qed.

Lemma nondecreasing_sorted (a : list Q) :
  nondecreasing a = true -> StronglySorted Qle a.
Proof.
  destruct a as [| x rest]; [ constructor | apply nondecreasing_from_sorted ].
Qed.

Lemma sorted_map_inv {A B : Type} (R : B -> B -> Prop) (f : A -> B) (l : list A) :
  StronglySorted R (map f l) -> StronglySorted (fun a b => R (f a) (f b)) l.
Proof.
  induction l as [| x rest IH]; simpl; intros H; [ constructor | ].
  apply StronglySorted_inv in H as [Hrest Hall].
  constructor; [ now apply IH | ].
  rewrite Forall_map in Hall. exact Hall.
Qed.

Lemma sorted_map {A B : Type} (R : B -> B -> Prop) (f : A -> B) (l : list A) :
  StronglySorted (fun a b => R (f a) (f b)) l -> StronglySorted R (map f l).
Proof.
  induction l as [| x rest IH]; simpl; intros H; [ constructor | ].
  apply StronglySorted_inv in H as [Hrest Hall].
  constructor; [ now apply IH | ].
  rewrite Forall_map. exact Hall.
Qed.

Lemma sorted_impl {A : Type} (R S : A -> A -> Prop) (l : list A) :
  (forall a b, R a b -> S a b) -> StronglySorted R l -> StronglySorted S l.
Proof.
  intros HRS. induction 1 as [| x rest Hrest IH Hall]; constructor; trivial.
  eapply Forall_impl; [ | exact Hall ]. intros b. apply HRS.
Qed.

Lemma sorted_filter {A : Type} (R : A -> A -> Prop) (f : A -> bool) (l : list A) :
  StronglySorted R l -> StronglySorted R (filter f l).
Proof.
  induction 1 as [| x rest Hrest IH Hall]; simpl; [ constructor | ].
  destruct (f x); trivial.
  constructor; trivial. now apply Forall_filter_keep.
Qed.



Lemma with_time_s_nondecreasing (df : DataFrame) :
  nondecreasing (log_times df) = true ->
  StronglySorted (fun r1 r2 => time_s r1 <= time_s r2) (with_time_s df).
Proof.
  intros H. apply nondecreasing_sorted in H. unfold log_times in H.
  apply sorted_map_inv in H.
  unfold with_time_s. apply sorted_map.
  eapply sorted_impl; [ | exact H ].
  intros a b Hab. simpl. apply Qmult_le_r; [ reflexivity | exact Hab ].
Qed.



(** ** Average acceleration and average speed *)








(** ** Distances on ordered logs with forward speeds *)

Lemma trapezoid_nonnegative (data : WorkFrame) :
  StronglySorted (fun r1 r2 => time_s r1 <= time_s r2) data ->
  Forall (fun r => 0 <= speed_kmh (base r)) data ->
  0 <= trapezoid (speed_samples data).
Proof.
  intros Hs Hv. destruct data as [| r0 rest]; [ simpl; lra | ].
  revert r0 Hs Hv. induction rest as [| r1 rest IH]; intros r0 Hs Hv; [ simpl; lra | ].
  apply StronglySorted_inv in Hs as [Hs Hall].
  apply Forall_inv in Hall as H01.
  apply Forall_inv in Hv as Hv0. apply Forall_inv_tail in Hv as Hv'.
  apply Forall_inv in Hv' as Hv1.
  specialize (IH r1 Hs Hv').
  change (trapezoid (speed_samples (r0 :: r1 :: rest)))
    with ((speed_kmh (base r0) / (36 # 10) + speed_kmh (base r1) / (36 # 10)) / 2
          * (time_s r1 - time_s r0) + trapezoid (speed_samples (r1 :: rest))).
  assert (A0 : 0 <= speed_kmh (base r0) / (36 # 10)).
  { apply Qle_shift_div_l; [ reflexivity | lra ]. }
  assert (A1 : 0 <= speed_kmh (base r1) / (36 # 10)).
  { apply Qle_shift_div_l; [ reflexivity | lra ]. }
  assert (A : 0 <= (speed_kmh (base r0) / (36 # 10) + speed_kmh (base r1) / (36 # 10)) / 2).
  { apply Qle_shift_div_l; [ reflexivity | lra ]. }
  assert (P : 0 <= (speed_kmh (base r0) / (36 # 10) + speed_kmh (base r1) / (36 # 10)) / 2
                   * (time_s r1 - time_s r0)).
  { apply Qmult_le_0_compat; lra. }
  lra.
Qed.

Lemma with_time_s_speeds (df : DataFrame) :
  speeds_nonnegative df = true ->
  Forall (fun r => 0 <= speed_kmh (base r)) (with_time_s df).
Proof.
  unfold speeds_nonnegative, log_speeds, with_time_s. intros H.
  rewrite forallb_forall in H. rewrite Forall_map. apply Forall_forall.
  intros x Hx. simpl. apply Qle_bool_iff. apply H. now apply in_map.
Qed.

(** X11.  On a log whose times never decrease and whose speeds are never
    negative, the distance of every threshold-to-threshold result is not
    negative. *)
Theorem distance_not_negative :
  forall df a b ui,
    nondecreasing (log_times df) = true ->
    speeds_nonnegative df = true ->
    (forall r, calculate_speed_acceleration df a b ui = Some r -> 0 <= s_distance r) /\
    (forall r, calculate_rpm_acceleration df a b ui = Some r -> 0 <= r_distance r).
Proof.
  intros df a b ui Hs Hv.
  apply with_time_s_nondecreasing in Hs. apply with_time_s_speeds in Hv.
  split.
  - intros r H. apply calculate_speed_acceleration_inv in H
      as (st & sb & sa & et & eb & ea & _ & _ & _ & _ & _ & _ & Ed & _).
    rewrite Ed, travelled_trapezoid.
    apply trapezoid_nonnegative; [ now apply sorted_filter | now apply Forall_filter_keep ].
  - intros r H. apply calculate_rpm_acceleration_inv in H
      as (st & sb & sa & et & eb & ea & _ & _ & _ & _ & _ & _ & Ed & _).
    rewrite Ed, travelled_trapezoid.
    apply trapezoid_nonnegative; [ now apply sorted_filter | now apply Forall_filter_keep ].
Qed.

Lemma distance_not_negative_witness :
  nondecreasing (log_times ramp_36) = true /\
  speeds_nonnegative ramp_36 = true /\
  exists r, calculate_speed_acceleration ramp_36 36 72 false = Some r /\ 0 <= s_distance r.
Proof.
  assert (H1 : nondecreasing (log_times ramp_36) = true) by (vm_compute; reflexivity).
  assert (H2 : speeds_nonnegative ramp_36 = true) by (vm_compute; reflexivity).
  split; [ exact H1 | ]. split; [ exact H2 | ].
  eexists. split; [ vm_compute; reflexivity | ].
  apply (proj1 (distance_not_negative ramp_36 36 72 false H1 H2)).
  vm_compute. reflexivity.
Defined.

(** The first cumulative distance of a frame of two or more samples. *)
Lemma cumulative_head (r0 r1 : wrow) (rest : WorkFrame) :
  exists tail,
    np_cumsum (pair_distances (r0 :: r1 :: rest)) =
    (kmh_to_ms (speed_kmh (base r0)) + kmh_to_ms (speed_kmh (base r1))) / 2
      * (time_s r1 - time_s r0) :: tail.
Proof.
  rewrite pair_distances_cons. simpl. eauto.
Qed.

(** X12.  On a log whose times never decrease and whose speeds are never
    negative, a target distance of zero or less is never measured: the
    first interval already reaches it, and the measurement reports NotFound. *)
Theorem nonpositive_target_distance_NotFound :
  forall df start_speed target_distance ui,
    nondecreasing (log_times df) = true ->
    speeds_nonnegative df = true ->
    target_distance <= 0 ->
    calculate_distance_time df start_speed target_distance ui = None.
Proof.
  intros df start_speed target_distance ui Hs Hv Ht.
  apply with_time_s_nondecreasing in Hs. apply with_time_s_speeds in Hv.
  destruct (calculate_distance_time df start_speed target_distance ui) as [r |] eqn:E;
    trivial.
  exfalso.
  apply calculate_distance_time_inv in E as (st & sb & sa & E). cbv zeta in E.
  destruct E as (_ & Hlen & _ & Hpos & _).
  apply (sorted_filter _ (fun r => Qle_bool st (time_s r))) in Hs.
  apply (Forall_filter_keep _ (fun r => Qle_bool st (time_s r))) in Hv.
  fold (after st (with_time_s df)) in Hs, Hv.
  destruct (after st (with_time_s df)) as [| r0 [| r1 rest]]; simpl in Hlen; try lia.
  destruct (cumulative_head r0 r1 rest) as [tail Ec]. rewrite Ec in Hpos.
  apply StronglySorted_inv in Hs as [_ Hall]. apply Forall_inv in Hall as H01.
  apply Forall_inv in Hv as Hv0. apply Forall_inv_tail in Hv as Hv'.
  apply Forall_inv in Hv' as Hv1.
  assert (A0 : 0 <= kmh_to_ms (speed_kmh (base r0))).
  { apply Qle_shift_div_l; [ reflexivity | lra ]. }
  assert (A1 : 0 <= kmh_to_ms (speed_kmh (base r1))).
  { apply Qle_shift_div_l; [ reflexivity | lra ]. }
  assert (A : 0 <= (kmh_to_ms (speed_kmh (base r0)) + kmh_to_ms (speed_kmh (base r1))) / 2).
  { apply Qle_shift_div_l; [ reflexivity | lra ]. }
  assert (P : 0 <= (kmh_to_ms (speed_kmh (base r0)) + kmh_to_ms (speed_kmh (base r1))) / 2
                   * (time_s r1 - time_s r0)).
  { apply Qmult_le_0_compat; lra. }
  assert (Hm : Qle_bool target_distance
                 ((kmh_to_ms (speed_kmh (base r0)) + kmh_to_ms (speed_kmh (base r1))) / 2
                  * (time_s r1 - time_s r0)) = true).
  { apply Qle_bool_iff. lra. }
  simpl in Hpos. rewrite Hm in Hpos. lia.
Qed.

Lemma nonpositive_target_distance_NotFound_witness :
  nondecreasing (log_times ramp_36) = true /\
  speeds_nonnegative ramp_36 = true /\
  0 <= 0 /\
  calculate_distance_time ramp_36 36 0 true = None.
Proof.
  assert (H1 : nondecreasing (log_times ramp_36) = true) by (vm_compute; reflexivity).
  assert (H2 : speeds_nonnegative ramp_36 = true) by (vm_compute; reflexivity).
  assert (H3 : 0 <= 0) by apply Qle_refl.
  split; [ exact H1 | ]. split; [ exact H2 | ]. split; [ exact H3 | ].
  apply (nonpositive_target_distance_NotFound ramp_36 36 0 true H1 H2 H3).
Defined.

(** ** Nearest-sample mode reads its results from the log *)






(** ** numpy.interp at a sample time *)






(** ** The interval in which the target distance is reached *)

(** X15.  The end time of a distance-from-speed result is interpolated in the
    first sampling interval whose cumulative distance reaches the target.
    With [idx] the first index of the cumulative distances at or above the
    target, [idx] is at least 1, the cumulative distance just before is below
    the target, the zero-gap fallback is not taken, and the end time is
    times[idx] + (target - before) / (at - before) * (times[idx+1] - times[idx])
    over the retained samples; it is not before times[idx] when the two
    samples are in time order. *)
Theorem end_time_in_reaching_interval :
  forall df start_speed target_distance ui r,
    calculate_distance_time df start_speed target_distance ui = Some r ->
    let suffix := after (d_start_time r) (with_time_s df) in
    let cumulative := np_cumsum (pair_distances suffix) in
    exists idx db da rb ra,
      (0 < idx)%nat /\
      nth_error cumulative (idx - 1) = Some db /\ nth_error cumulative idx = Some da /\
      db < target_distance /\ target_distance <= da /\
      (forall j c, (j < idx)%nat -> nth_error cumulative j = Some c -> c < target_distance) /\
      nth_error suffix idx = Some rb /\ nth_error suffix (S idx) = Some ra /\
      d_end_time r =
        time_s rb + (target_distance - db) / (da - db) * (time_s ra - time_s rb) /\
      (time_s rb <= time_s ra -> time_s rb <= d_end_time r).
Proof.
  intros df start_speed target_distance ui r H. cbv zeta.
  apply calculate_distance_time_inv in H as (st & sb & sa & H). cbv zeta in H.
  destruct H as (_ & _ & Hany & Hpos & (db & da & tb & ta & Hdb & Hda & Htb & Hta & Het)
                 & -> & _).
  set (suffix := after st (with_time_s df)) in *.
  set (cumulative := np_cumsum (pair_distances suffix)) in *.
  set (idx := np_argmax (distance_mask target_distance cumulative)) in *.
  destruct (distance_bracket _ _ _ _ Hany Hpos Hdb Hda) as [Hlo Hhi].
  rewrite (interpolate_end_time_bracket _ _ _ _ _ Hlo Hhi) in Het.
  injection Het as Het.
  apply getitem_col in Htb as [rb [Hb [_ Etb]]].
  apply getitem_col in Hta as [ra [Ha [_ Eta]]].
  simpl in Etb, Eta. subst tb ta.
  replace (idx + 1)%nat with (S idx) in Ha by lia.
  apply getitem_Ok in Hdb, Hda.
  assert (Hfirst : first_reaching up target_distance cumulative idx).
  { apply (argmax_first_reaching up target_distance cumulative). exact Hany. }
  exists idx, db, da, rb, ra.
  split; [ exact Hpos | ].
  split; [ exact Hdb | ]. split; [ exact Hda | ].
  split; [ exact Hlo | ]. split; [ exact Hhi | ].
  split.
  { intros j c Hj Hc. destruct Hfirst as [_ Hbefore].
    apply Qle_bool_false. exact (Hbefore j c Hj Hc). }
  split; [ exact Hb | ]. split; [ exact Ha | ].
  split; [ symmetry; exact Het | ].
  intros Hord. rewrite <- Het.
  destruct (fraction_unit target_distance db da Hlo Hhi) as [F0 F1].
  apply convex_lower; trivial. apply Qle_refl.
Qed.

Lemma end_time_in_reaching_interval_witness :
  exists r,
    calculate_distance_time ramp_36 36 100 true = Some r /\
    exists idx db da rb ra,
      (0 < idx)%nat /\
      nth_error (np_cumsum (pair_distances (after (d_start_time r) (with_time_s ramp_36))))
        (idx - 1) = Some db /\
      nth_error (np_cumsum (pair_distances (after (d_start_time r) (with_time_s ramp_36))))
        idx = Some da /\
      db < 100 /\ 100 <= da /\
      (forall j c, (j < idx)%nat ->
         nth_error (np_cumsum (pair_distances (after (d_start_time r) (with_time_s ramp_36))))
           j = Some c -> c < 100) /\
      nth_error (after (d_start_time r) (with_time_s ramp_36)) idx = Some rb /\
      nth_error (after (d_start_time r) (with_time_s ramp_36)) (S idx) = Some ra /\
      d_end_time r = time_s rb + (100 - db) / (da - db) * (time_s ra - time_s rb) /\
      (time_s rb <= time_s ra -> time_s rb <= d_end_time r).
Proof.
  eexists. split; [ vm_compute; reflexivity | ].
  apply (end_time_in_reaching_interval ramp_36 36 100 true).
  vm_compute. reflexivity.
Defined.

(** * The result tables *)

Lemma insert_by_perm {A : Type} (key : A -> Q) (x : A) (l : list A) :
  Permutation (x :: l) (insert_by key x l).
Proof.
  induction l as [| y rest IH]; simpl; [ apply Permutation_refl | ].
  destruct (Qle_bool (key x) (key y)); [ apply Permutation_refl | ].
  eapply perm_trans; [ apply perm_swap | ]. now apply perm_skip.
Qed.

Lemma sort_by_perm {A : Type} (key : A -> Q) (l : list A) :
  Permutation l (sort_by key l).
Proof.
  induction l as [| x rest IH]; simpl; [ constructor | ].
  eapply perm_trans; [ apply perm_skip, IH | apply insert_by_perm ].
Qed.

Lemma insert_by_sorted {A : Type} (key : A -> Q) (x : A) (l : list A) :
  StronglySorted (fun a b => key a <= key b) l ->
  StronglySorted (fun a b => key a <= key b) (insert_by key x l).
Proof.
  induction 1 as [| y rest Hrest IH Hall]; simpl.
  - constructor; constructor.
  - destruct (Qle_bool (key x) (key y)) eqn:E.
    + apply Qle_bool_iff in E.
      constructor; [ constructor; trivial | ].
      constructor; trivial.
      eapply Forall_impl; [ | exact Hall ]. intros z Hz. eapply Qle_trans; eauto.
    + apply Qle_bool_false in E.
      constructor; trivial.
      eapply Permutation_Forall; [ apply insert_by_perm | ].
      constructor; [ now apply Qlt_le_weak | exact Hall ].
Qed.

Lemma sort_by_sorted {A : Type} (key : A -> Q) (l : list A) :
  StronglySorted (fun a b => key a <= key b) (sort_by key l).
Proof.
  induction l as [| x rest IH]; simpl; [ constructor | now apply insert_by_sorted ].
Qed.

(** Insertion never moves an element past one with the same key. *)
Lemma insert_by_same_key {A : Type} (key : A -> Q) (k : Q) (x : A) (l : list A) :
  filter (fun a => Qeq_bool (key a) k) (insert_by key x l) =
  filter (fun a => Qeq_bool (key a) k) (x :: l).
Proof.
  induction l as [| y rest IH]; [ reflexivity | ].
  simpl insert_by. destruct (Qle_bool (key x) (key y)) eqn:E; [ reflexivity | ].
  apply Qle_bool_false in E.
  simpl filter in *. rewrite IH.
  destruct (Qeq_bool (key x) k) eqn:Ex; [ | reflexivity ].
  apply Qeq_bool_iff in Ex.
  assert (Ey : Qeq_bool (key y) k = false) by (apply Qeq_bool_false; lra).
  now rewrite Ey.
Qed.

Lemma sort_by_same_key {A : Type} (key : A -> Q) (k : Q) (l : list A) :
  filter (fun a => Qeq_bool (key a) k) (sort_by key l) =
  filter (fun a => Qeq_bool (key a) k) l.
Proof.
  induction l as [| x rest IH]; [ reflexivity | ].
  simpl sort_by. rewrite insert_by_same_key. simpl. now rewrite IH.
Qed.

Lemma filter_split_perm {A : Type} (f : A -> bool) (l : list A) :
  Permutation l (filter f l ++ filter (fun a => negb (f a)) l).
Proof.
  induction l as [| x rest IH]; simpl; [ constructor | ].
  destruct (f x); simpl.
  - now apply perm_skip.
  - now apply Permutation_cons_app.
Qed.

Lemma filter_filter {A : Type} (f g : A -> bool) (l : list A) :
  filter f (filter g l) = filter (fun a => g a && f a) l.
Proof.
  induction l as [| x rest IH]; simpl; [ reflexivity | ].
  destruct (g x); simpl; [ destruct (f x) | ]; now rewrite IH.
Qed.

Lemma sorted_results_ordered {R : Type} (time_of : R -> Q) (results : list (table_row R)) :
  table_ordered time_of results (sorted_results time_of results).
Proof.
  unfold table_ordered, sorted_results. split.
  - eapply perm_trans; [ apply (filter_split_perm has_data) | ].
    apply Permutation_app_tail. apply sort_by_perm.
  - eexists. split; [ reflexivity | ]. split.
    + eapply Permutation_Forall; [ apply sort_by_perm | ].
      apply Forall_forall. intros row Hin. now apply filter_In in Hin.
    + apply sort_by_sorted.
Qed.

Lemma sorted_results_stable {R : Type} (time_of : R -> Q) (k : Q)
    (results : list (table_row R)) :
  rows_displaying time_of k (sorted_results time_of results) =
  rows_displaying time_of k results.
Proof.
  unfold rows_displaying, sorted_results.
  rewrite filter_app.
  assert (Hinv : filter (fun row => has_data row && Qeq_bool (displayed_time time_of row) k)
                   (filter (fun row => negb (has_data row)) results) = []).
  { rewrite filter_filter.
    induction results as [| x rest IH]; simpl; [ reflexivity | ].
    destruct (has_data x); simpl; exact IH. }
  rewrite Hinv, app_nil_r.
  rewrite <- (filter_filter (fun row => Qeq_bool (displayed_time time_of row) k) has_data
                (sort_by (displayed_time time_of) (filter has_data results))).
  assert (Hall : filter has_data (sort_by (displayed_time time_of) (filter has_data results))
                 = sort_by (displayed_time time_of) (filter has_data results)).
  { apply forallb_filter_id. apply forallb_forall.
    intros row Hin.
    eapply Permutation_in in Hin; [ | apply Permutation_sym, sort_by_perm ].
    now apply filter_In in Hin. }
  rewrite Hall, sort_by_same_key, filter_filter. reflexivity.
Qed.

(** X16.  Every displayed table holds exactly the per-file rows: first the
    rows with a result, in nondecreasing order of the displayed (three-decimal)
    time, then the rows without one, in upload order. *)
Theorem displayed_tables_ordered :
  forall files a b ui,
    (forall rows, speed_table files a b ui = Table rows ->
                  table_ordered s_time (speed_results files a b ui) rows) /\
    (forall rows, rpm_table files a b ui = Table rows ->
                  table_ordered r_time (rpm_results files a b ui) rows) /\
    (forall rows, distance_table files a b ui = Table rows ->
                  table_ordered d_time (distance_results files a b ui) rows).
Proof.
  intros files a b ui. split; [ | split ]; intros rows H.
  - unfold speed_table in H. destruct files; [ discriminate | ].
    destruct (Qle_bool b a); [ discriminate | ].
    injection H as <-. apply sorted_results_ordered.
  - unfold rpm_table in H. destruct files; [ discriminate | ].
    destruct (Qle_bool b a); [ discriminate | ].
    injection H as <-. apply sorted_results_ordered.
  - unfold distance_table in H. destruct files; [ discriminate | ].
    destruct (Qle_bool a 0 || Qle_bool b 0); [ discriminate | ].
    injection H as <-. apply sorted_results_ordered.
Qed.

(** X17.  Sorting a table is stable: among the rows with a result, those
    showing the same time stay in upload order. *)
Theorem displayed_tables_stable :
  forall files a b ui k,
    (forall rows, speed_table files a b ui = Table rows ->
                  rows_displaying s_time k rows =
                  rows_displaying s_time k (speed_results files a b ui)) /\
    (forall rows, rpm_table files a b ui = Table rows ->
                  rows_displaying r_time k rows =
                  rows_displaying r_time k (rpm_results files a b ui)) /\
    (forall rows, distance_table files a b ui = Table rows ->
                  rows_displaying d_time k rows =
                  rows_displaying d_time k (distance_results files a b ui)).
Proof.
  intros files a b ui k. split; [ | split ]; intros rows H.
  - unfold speed_table in H. destruct files; [ discriminate | ].
    destruct (Qle_bool b a); [ discriminate | ].
    injection H as <-. apply sorted_results_stable.
  - unfold rpm_table in H. destruct files; [ discriminate | ].
    destruct (Qle_bool b a); [ discriminate | ].
    injection H as <-. apply sorted_results_stable.
  - unfold distance_table in H. destruct files; [ discriminate | ].
    destruct (Qle_bool a 0 || Qle_bool b 0); [ discriminate | ].
    injection H as <-. apply sorted_results_stable.
Qed.

Lemma displayed_tables_ordered_witness :
  exists rows,
    speed_table two_logs 36 72 true = Table rows /\
    table_ordered s_time (speed_results two_logs 36 72 true) rows.
Proof.
  eexists. split; [ vm_compute; reflexivity | ].
  apply (proj1 (displayed_tables_ordered two_logs 36 72 true)).
  vm_compute. reflexivity.
Defined.

Lemma displayed_tables_stable_witness :
  exists rows,
    speed_table two_logs 36 72 false = Table rows /\
    rows_displaying s_time 1 rows =
    rows_displaying s_time 1 (speed_results two_logs 36 72 false).
Proof.
  eexists. split; [ vm_compute; reflexivity | ].
  apply (proj1 (displayed_tables_stable two_logs 36 72 false 1)).
  vm_compute. reflexivity.
Defined.

(** * logSL: automatic settings *)

Lemma str_in_In (x : String.string) (xs : list String.string) :
  str_in x xs = true <-> In x xs.
Proof.
  unfold str_in. rewrite existsb_exists. split.
  - intros [y [Hin E]]. apply String.eqb_eq in E. now subst.
  - intros Hin. exists x. split; trivial. apply String.eqb_refl.
Qed.

Lemma auto_select_columns_In (columns : list String.string) (c : String.string) :
  In c (auto_select_columns columns) <-> In c columns /\ In c target_columns.
Proof.
  unfold auto_select_columns. now rewrite filter_In, str_in_In.
Qed.

(** X20.  The automatic selection keeps columns of the file only, so indexing
    the frame with it cannot fail; selecting again from the selection changes
    nothing; and on a file whose column names are distinct it holds at most
    the three target columns, each once. *)
Theorem auto_select_columns_sound :
  forall columns,
    incl (auto_select_columns columns) columns /\
    auto_select_columns (auto_select_columns columns) = auto_select_columns columns /\
    (NoDup columns ->
     NoDup (auto_select_columns columns) /\
     (length (auto_select_columns columns) <= 3)%nat).
Proof.
  intros columns. split; [ | split ].
  - intros c Hc. now apply auto_select_columns_In in Hc.
  - unfold auto_select_columns. rewrite filter_filter.
    apply filter_ext. intros c. now rewrite andb_diag.
  - intros Hnd.
    assert (Hnd' : NoDup (auto_select_columns columns)) by now apply NoDup_filter.
    split; trivial.
    change 3%nat with (length target_columns).
    apply NoDup_incl_length; trivial.
    intros c Hc. now apply auto_select_columns_In in Hc.
Qed.

Lemma auto_select_columns_sound_witness :
  NoDup ["Time [ms]"%string; "Gear"%string; "Vehicle Speed [km/h]"%string] /\
  (length (auto_select_columns
             ["Time [ms]"%string; "Gear"%string; "Vehicle Speed [km/h]"%string]) <= 3)%nat.
Proof.
  assert (H : NoDup ["Time [ms]"%string; "Gear"%string; "Vehicle Speed [km/h]"%string]).
  { repeat constructor; simpl; intuition discriminate. }
  split; [ exact H | ].
  apply (proj2 (proj2 (auto_select_columns_sound
                         ["Time [ms]"%string; "Gear"%string; "Vehicle Speed [km/h]"%string]))
           H).
Defined.

(** X21.  The automatic trimming settings always have the key 'method'; they
    have the key 'column' exactly when the file has the engine-speed column,
    and then the method is 'column' and the proposed column is that column,
    which the automatic selection has selected.  On any other file looking up
    'column', 'operator' or 'value' is a KeyError. *)
Theorem auto_set_last_row_settings_keys :
  forall columns,
    let settings := auto_set_last_row_settings columns in
    (In target_column columns ->
     dict_get "method"%string settings = Some "column"%string /\
     dict_get "column"%string settings = Some target_column /\
     dict_get "operator"%string settings = Some ">="%string /\
     dict_get "value"%string settings = Some "1"%string /\
     In target_column (auto_select_columns columns)) /\
    (~ In target_column columns ->
     dict_get "method"%string settings = Some "none"%string /\
     dict_get "column"%string settings = None /\
     dict_get "operator"%string settings = None /\
     dict_get "value"%string settings = None).
Proof.
  intros columns settings. unfold settings, auto_set_last_row_settings. split.
  - intros Hin. apply str_in_In in Hin as Hb. rewrite Hb.
    repeat split; try reflexivity.
    apply auto_select_columns_In. split; trivial. simpl. auto.
  - intros Hnot.
    destruct (str_in target_column columns) eqn:Hb.
    + apply str_in_In in Hb. contradiction.
    + repeat split; reflexivity.
Qed.

Lemma auto_set_last_row_settings_keys_witness :
  ~ In target_column ["Time [ms]"%string; "Gear"%string] /\
  dict_get "column"%string (auto_set_last_row_settings ["Time [ms]"%string; "Gear"%string])
    = None.
Proof.
  assert (H : ~ In target_column ["Time [ms]"%string; "Gear"%string]).
  { simpl. intuition discriminate. }
  split; [ exact H | ].
  apply (proj2 (auto_set_last_row_settings_keys ["Time [ms]"%string; "Gear"%string]) H).
Defined.
